(** * opentrack: the EWMA filter with dynamic smoothing (filter-ewma2)

    A shallow embedding of [FTNoIR_Filter::filter]
    (filter-ewma2/ftnoir_filter_ewma2.cpp) and of the [Timer] class and the
    clocks it reads (opentrack-compat/timer.hpp).

    Numbers.  The code computes in [double].  It is embedded twice:

    - in module [Ewma2] over the real numbers [R], where the theorems are
      proved.  Arithmetic there is exact and the quotient is total, which
      the code's arithmetic is not: a theorem about the filter is stated
      so that it holds as well when each operation is read as the
      operation of binary64 on finite values (it uses what rounding keeps:
      the order of the operands, the values 0 and 1, equal expressions);
    - in module [Ewma2.Binary64] over the binary64 numbers of the kernel,
      operation by operation, where the code is run on given inputs.  What
      holds in exact arithmetic only is refuted there.

    The literals [1e-4], [1e-10], [9.0] and [1e-9] are the rationals they
    denote in [R] and the nearest binary64 numbers in [float].  [long long]
    nanosecond counts are unbounded integers [Z] (signed overflow is
    undefined in C++ and needs a span of centuries).

    Arrays.  A [double[6]] is a map from index to value; the code only ever
    touches the indices 0 to 5.

    Time.  Every call of [clock_gettime] is an input of the invocation: the
    readings are passed in the order in which the code takes them. *)

From Stdlib Require Import Reals Lra Lia ZArith List Bool Uint63.
From Corelib Require Import PrimFloat.

(** A decimal literal of type [float] stands for the nearest binary64
    number, as a literal of type [double] does in C++. *)
Set Warnings "-inexact-float".
Import ListNotations.

Open Scope R_scope.

(** ** opentrack-compat/timer.hpp *)

Module Clock.

Record timespec : Set := { tv_sec : Z; tv_nsec : Z }.

(** [class Timer]: its only member is [struct timespec state]. *)
Record Timer : Set := { state : timespec }.

(** [long long conv(const struct timespec& cur) const] *)
Definition conv (t : Timer) (cur : timespec) : Z :=
  ((tv_sec cur - tv_sec (state t)) * 1000000000
   + (tv_nsec cur - tv_nsec (state t)))%Z.

(** [void start()]: the timer keeps the reading [cur] of the clock. *)
Definition start (cur : timespec) : Timer := {| state := cur |}.

(** [long long elapsed() const], with [cur] the reading it takes. *)
Definition elapsed (t : Timer) (cur : timespec) : Z := conv t cur.

(** The quotient [elapsed() / 1000000LL] of [elapsed_ms], before its
    conversion to [long] ([elapsed_ms_long] below is the function). *)
Definition elapsed_ms (t : Timer) (cur : timespec) : Z :=
  Z.quot (elapsed t cur) 1000000.

(** [double elapsed_seconds() const], in exact arithmetic
    ([Ewma2.Binary64.elapsed_seconds] has the conversion and the product of
    binary64). *)
Definition elapsed_seconds (t : Timer) (cur : timespec) : R :=
  IZR (elapsed t cur) * 1e-9.

(** The instant a reading denotes, in nanoseconds. *)
Definition nanos (ts : timespec) : Z :=
  (tv_sec ts * 1000000000 + tv_nsec ts)%Z.

(** [CLOCK_MONOTONIC]: a later reading is never before an earlier one. *)
Definition not_after (a b : timespec) : Prop := (nanos a <= nanos b)%Z.

(** A reading as [clock_gettime] of POSIX returns it: [tv_nsec] counts the
    nanoseconds of the running second. *)
Definition normal (ts : timespec) : Prop :=
  (0 <= tv_nsec ts < 1000000000)%Z.

(** The order of two readings as pairs (seconds, nanoseconds). *)
Definition lex_le (a b : timespec) : Prop :=
  (tv_sec a < tv_sec b
   \/ (tv_sec a = tv_sec b /\ tv_nsec a <= tv_nsec b))%Z.

(** The conversion of an integer to a signed type of [w] bits in two's
    complement, as [long(...)] converts a [long long]. *)
Definition to_signed (w x : Z) : Z :=
  ((x + 2 ^ (w - 1)) mod 2 ^ w - 2 ^ (w - 1))%Z.

(** [long elapsed_ms() const] with the conversion [long(...)] written out,
    for a [long] of [w] bits (64 on Linux and macOS, 32 on Windows). *)
Definition elapsed_ms_long (w : Z) (t : Timer) (cur : timespec) : Z :=
  to_signed w (elapsed_ms t cur).

(** Arithmetic in [uint64_t]. *)
Definition uint64 (x : Z) : Z := (x mod 2 ^ 64)%Z.

(** [mach_timebase_info_data_t]: the two [uint32_t] of the time base. *)
Record mach_timebase_info_data_t : Set := { numer : Z; denom : Z }.

(** [clock_gettime] for [__MACH__] (lines 44-55).  [sTimebaseInfo] is the
    static of the function as the call finds it (zero before the first
    call), [os_info] what [mach_timebase_info] writes and [absolute] what
    [mach_absolute_time] returns; the result is the reading and the static
    as the call leaves it.  The quotient by a [denom] of 0 is undefined in
    C++. *)
Definition mach_clock_gettime
    (sTimebaseInfo os_info : mach_timebase_info_data_t) (absolute : Z)
  : timespec * mach_timebase_info_data_t :=
  let info :=
    if (denom sTimebaseInfo =? 0)%Z then os_info else sTimebaseInfo in
  let nsec := (uint64 (absolute * numer info) / denom info)%Z in
  ({| tv_sec := (nsec / 1000000000)%Z; tv_nsec := (nsec mod 1000000000)%Z |},
   info).

(** [opentrack_clock_gettime] for [_WIN32], lines 35-36: the reading made of
    the nanosecond count [part] of line 31 (a [long long]; the quotient of
    the two performance counter values that gives it is computed in
    [long double] and is no part of this model).  The quotient and the
    remainder of C++ round toward zero. *)
Definition timespec_of_part (part : Z) : timespec :=
  {| tv_sec := Z.quot part 1000000000; tv_nsec := Z.rem part 1000000000 |}.

End Clock.

(** ** filter-ewma2/ftnoir_filter_ewma2.cpp *)

Module Ewma2.
Import Clock.

(** A [double[6]]. *)
Definition vec : Type := nat -> R.

(** The assignment [a[i] = x]. *)
Definition upd (a : vec) (i : nat) (x : R) : vec :=
  fun j => if Nat.eqb j i then x else a j.

(** [for (unsigned i = 0; i < 6; i++) body], for a body without [break]. *)
Definition for6 {St : Type} (body : nat -> St -> St) (s : St) : St :=
  fold_left (fun acc i => body i acc) (seq 0 6) s.

(** [std::min<double>(a, b)] is [(b < a) ? b : a]. *)
Definition std_min (a b : R) : R := if Rlt_dec b a then b else a.

(** [std::max(a, b)] is [(a < b) ? b : a]. *)
Definition std_max (a b : R) : R := if Rlt_dec a b then b else a.

(** [std::fabs] *)
Definition fabs (x : R) : R := Rabs x.

(** [std::pow(x, y)] for a base [x >= 0], as the C library defines it:
    [pow(x, 0) = 1] for every [x], [pow(0, y) = 0] for [y > 0], and
    [exp(y * log(x))] for [x > 0].  The two cases whose C result is no real
    number (a zero base with a negative exponent gives an infinity, a
    negative base with a fractional exponent gives NaN) are outside this
    model: the filter's base is [norm_noise], which is never negative, and
    a theorem that depends on the value of [pow] has the exponent not
    negative among its hypotheses. *)
Definition pow (x y : R) : R :=
  if Req_dec_T y 0 then 1
  else if Req_dec_T x 0 then 0
  else Rpower x y.

(** The settings the filter reads: the current value of each of the three
    sliders of [struct settings] (declared in ftnoir_filter_ewma2.h). *)
Record settings : Type := {
  kMinSmoothing : R;
  kMaxSmoothing : R;
  kSmoothingScaleCurve : R
}.

(** The data members of [class FTNoIR_Filter] that [filter] uses. *)
Record FTNoIR_Filter : Type := {
  first_run : bool;
  last_output : vec;
  last_delta : vec;
  last_noise : vec;
  dt_ : R;
  sample_timer : Timer;
  filter_timer : Timer
}.

(** The readings of the monotonic clock one invocation takes, in program
    order: the two [start()] of the first run (lines 35-36), the two
    [elapsed_seconds()] (lines 57-58) and the two [start()] (lines 61-62).
    A reading the invocation does not take is ignored. *)
Record readings : Set := {
  init_sample_start : timespec;
  init_filter_start : timespec;
  sample_elapsed : timespec;
  filter_elapsed : timespec;
  sample_start : timespec;
  filter_start : timespec
}.

(** [static const double c[] = { 5, 5, 3, 1, 1, 1 };]  The table has six
    entries and the loop reads [c[0]] to [c[5]]; the value given here to an
    index beyond them is never read. *)
Definition c (i : nat) : R :=
  match i with
  | 0%nat => 5
  | 1%nat => 5
  | 2%nat => 3
  | 3%nat => 1
  | 4%nat => 1
  | 5%nat => 1
  | _ => 0
  end.

(** Lines 37-43: one turn of the initialisation loop. *)
Definition init_axis (input : vec) (i : nat) (f : FTNoIR_Filter)
  : FTNoIR_Filter :=
  {| first_run := first_run f;
     last_output := upd (last_output f) i (input i);
     last_delta := upd (last_delta f) i 0;
     last_noise := upd (last_noise f) i 0;
     dt_ := 0;
     sample_timer := sample_timer f;
     filter_timer := filter_timer f |}.

(** Lines 32-44: [if (first_run) { ... }]. *)
Definition initialise (f : FTNoIR_Filter) (now : readings) (input : vec)
  : FTNoIR_Filter :=
  if first_run f then
    for6 (init_axis input)
      {| first_run := false;
         last_output := last_output f;
         last_delta := last_delta f;
         last_noise := last_noise f;
         dt_ := dt_ f;
         sample_timer := start (init_sample_start now);
         filter_timer := start (init_filter_start now) |}
  else f.

(** Lines 46-53: the loop that sets [new_sample], left by [break] at the
    first axis that differs; [n] turns remain from index [i] on. *)
Fixpoint scan (n i : nat) (last input : vec) : bool :=
  match n with
  | O => false
  | S n' =>
      if Rgt_dec (fabs (last i - input i)) 1e-4 then true
      else scan n' (S i) last input
  end.

Definition new_sample (last input : vec) : bool := scan 6 0 last input.

(** The locals of one turn of the main loop (lines 81-97). *)
Record axis_locals : Type := {
  delta : R;
  next_delta : R;
  noise : R;
  next_noise : R;
  norm_noise : R;
  smoothing : R;
  RC : R;
  alpha : R;
  next_output : R
}.

(** Line 87. *)
Definition normalise (noise last_noise_i : R) : R :=
  if Rlt_dec last_noise_i 1e-10 then 0
  else std_min (noise / (9 * last_noise_i)) 1.

(** Line 92. *)
Definition smoothing_of (norm_noise smoothing_scale_curve : R) : R :=
  1 - pow norm_noise smoothing_scale_curve.

(** Line 93. *)
Definition RC_of (i : nat) (min_smoothing max_smoothing smoothing : R) : R :=
  c i * (min_smoothing + smoothing * (max_smoothing - min_smoothing)).

(** Lines 81-97 on the values of axis [i]. *)
Definition axis_body
    (delta_alpha noise_alpha smoothing_scale_curve min_smoothing
       max_smoothing dt_f : R)
    (i : nat) (input_i last_output_i last_delta_i last_noise_i : R)
  : axis_locals :=
  let delta := input_i - last_output_i in
  let last_delta_i := delta_alpha * delta + (1 - delta_alpha) * last_delta_i in
  let noise := last_delta_i * last_delta_i in
  let last_noise_i := noise_alpha * noise + (1 - noise_alpha) * last_noise_i in
  let norm_noise := normalise noise last_noise_i in
  let smoothing := smoothing_of norm_noise smoothing_scale_curve in
  let RC := RC_of i min_smoothing max_smoothing smoothing in
  let alpha := dt_f / (dt_f + RC) in
  {| delta := delta;
     next_delta := last_delta_i;
     noise := noise;
     next_noise := last_noise_i;
     norm_noise := norm_noise;
     smoothing := smoothing;
     RC := RC;
     alpha := alpha;
     next_output := alpha * input_i + (1 - alpha) * last_output_i |}.

(** Lines 75-98: one turn of the main loop on the filter and on the
    caller's [output] array. *)
Definition axis_step
    (delta_alpha noise_alpha smoothing_scale_curve min_smoothing
       max_smoothing dt_f : R)
    (input : vec) (i : nat) (st : FTNoIR_Filter * vec)
  : FTNoIR_Filter * vec :=
  let f := fst st in
  let l := axis_body delta_alpha noise_alpha smoothing_scale_curve
             min_smoothing max_smoothing dt_f i
             (input i) (last_output f i) (last_delta f i) (last_noise f i) in
  ({| first_run := first_run f;
      last_output := upd (last_output f) i (next_output l);
      last_delta := upd (last_delta f) i (next_delta l);
      last_noise := upd (last_noise f) i (next_noise l);
      dt_ := dt_ f;
      sample_timer := sample_timer f;
      filter_timer := filter_timer f |},
   upd (snd st) i (next_output l)).

(** What the main loop holds for one axis: [last_output[j]],
    [last_delta[j]], [last_noise[j]] and [output[j]]. *)
Definition channel : Type := (R * R * R * R)%type.

Definition chan (st : FTNoIR_Filter * vec) (j : nat) : channel :=
  (last_output (fst st) j, last_delta (fst st) j, last_noise (fst st) j,
   snd st j).

(** The channel of axis [j] after the turn of axis [j]. *)
Definition chan_step
    (delta_alpha noise_alpha smoothing_scale_curve min_smoothing
       max_smoothing dt_f : R)
    (input : vec) (j : nat) (ch : channel) : channel :=
  let '(lo, ld, ln, _) := ch in
  let l := axis_body delta_alpha noise_alpha smoothing_scale_curve
             min_smoothing max_smoothing dt_f j (input j) lo ld ln in
  (next_output l, next_delta l, next_noise l, next_output l).

(** The monotonic clock, as far as one invocation sees it: each timer is
    read no earlier than it was started (by the first run of this
    invocation, or by an earlier invocation). *)
Definition monotonic (f : FTNoIR_Filter) (now : readings) : Prop :=
  if first_run f
  then not_after (init_sample_start now) (sample_elapsed now)
       /\ not_after (init_filter_start now) (filter_elapsed now)
  else not_after (state (sample_timer f)) (sample_elapsed now)
       /\ not_after (state (filter_timer f)) (filter_elapsed now).

(** The invariant of the noise estimate: once the filter has run, no axis
    holds a negative [last_noise]. *)
Definition noise_nonneg (f : FTNoIR_Filter) : Prop :=
  first_run f = false -> forall i, (i < 6)%nat -> 0 <= last_noise f i.

Section Filter.

(** [delta_RC] and [noise_RC] are data members of the class, given their
    values in ftnoir_filter_ewma2.h, which is not among the sources: they
    are parameters here. *)
Variables delta_RC noise_RC : R.

(** The configuration of one invocation. *)
Variable s : settings.

(** Line 57. *)
Definition dt_s (f : FTNoIR_Filter) (now : readings) (input : vec) : R :=
  if new_sample (last_output f) input
  then elapsed_seconds (sample_timer f) (sample_elapsed now)
  else 0.

(** Line 58. *)
Definition dt_f (f : FTNoIR_Filter) (now : readings) : R :=
  elapsed_seconds (filter_timer f) (filter_elapsed now).

(** Lines 60-62. *)
Definition restart (f : FTNoIR_Filter) (now : readings) (input : vec)
  : FTNoIR_Filter :=
  {| first_run := first_run f;
     last_output := last_output f;
     last_delta := last_delta f;
     last_noise := last_noise f;
     dt_ := dt_ f;
     sample_timer :=
       if new_sample (last_output f) input
       then start (sample_start now) else sample_timer f;
     filter_timer := start (filter_start now) |}.

(** Lines 65-66. *)
Definition delta_alpha (dt_s : R) : R := dt_s / (dt_s + delta_RC).
Definition noise_alpha (dt_s : R) : R := dt_s / (dt_s + noise_RC).

(** Lines 69-72. *)
Definition smoothing_scale_curve : R := kSmoothingScaleCurve s.
Definition min_smoothing : R := kMinSmoothing s.
Definition max_smoothing : R := std_max min_smoothing (kMaxSmoothing s).

(** Lines 46-98 on a filter that has been through lines 32-44. *)
Definition run (f : FTNoIR_Filter) (now : readings) (input output : vec)
  : FTNoIR_Filter * vec :=
  let dt_s := dt_s f now input in
  let dt_f := dt_f f now in
  let f := restart f now input in
  for6 (axis_step (delta_alpha dt_s) (noise_alpha dt_s)
          smoothing_scale_curve min_smoothing max_smoothing dt_f input)
       (f, output).

(** [void FTNoIR_Filter::filter(const double *input, double *output)]:
    the filter and the [output] array after the call. *)
Definition filter (f : FTNoIR_Filter) (now : readings) (input output : vec)
  : FTNoIR_Filter * vec :=
  run (initialise f now input) now input output.

(** The locals of the turn of axis [i] in the invocation [filter f now
    input output]. *)
Definition locals (f : FTNoIR_Filter) (now : readings) (input : vec)
    (i : nat) : axis_locals :=
  let g := initialise f now input in
  let dt_s := dt_s g now input in
  axis_body (delta_alpha dt_s) (noise_alpha dt_s)
    smoothing_scale_curve min_smoothing max_smoothing (dt_f g now) i
    (input i) (last_output g i) (last_delta g i) (last_noise g i).

End Filter.

(** One call of [filter] by the tracking loop: the settings it reads, the
    clock readings it takes and its input. *)
Record call : Type := {
  call_settings : settings;
  call_now : readings;
  call_input : vec
}.

(** The calls of a list in turn, on the filter and the [output] array the
    previous call left. *)
Fixpoint filter_all (delta_RC noise_RC : R) (st : FTNoIR_Filter * vec)
    (calls : list call) : FTNoIR_Filter * vec :=
  match calls with
  | [] => st
  | k :: rest =>
      filter_all delta_RC noise_RC
        (filter delta_RC noise_RC (call_settings k) (fst st) (call_now k)
           (call_input k) (snd st))
        rest
  end.

(** The clock is monotonic along the calls of a list. *)
Fixpoint monotonic_all (delta_RC noise_RC : R) (st : FTNoIR_Filter * vec)
    (calls : list call) : Prop :=
  match calls with
  | [] => True
  | k :: rest =>
      monotonic (fst st) (call_now k)
      /\ monotonic_all delta_RC noise_RC
           (filter delta_RC noise_RC (call_settings k) (fst st) (call_now k)
              (call_input k) (snd st))
           rest
  end.

(** [FTNoIR_Filter::FTNoIR_Filter() : first_run(true)].  The constructor
    leaves the arrays and [dt_] as the memory held them ([a], [b], [d] and
    [x] here); each [Timer] member is started by its own constructor. *)
Definition construct (a b d : vec) (x : R) (t_sample t_filter : timespec)
  : FTNoIR_Filter :=
  {| first_run := true;
     last_output := a;
     last_delta := b;
     last_noise := d;
     dt_ := x;
     sample_timer := start t_sample;
     filter_timer := start t_filter |}.

(** Values to run the definitions on. *)
Definition constant (x : R) : vec := fun _ => x.

Definition seconds (n : Z) : timespec := {| tv_sec := n; tv_nsec := 0 |}.

Definition example_settings : settings :=
  {| kMinSmoothing := 0.02; kMaxSmoothing := 0.7; kSmoothingScaleCurve := 0.8 |}.


Definition example_fresh : FTNoIR_Filter :=
  construct (constant 7) (constant 8) (constant 9) 0 (seconds 0) (seconds 0).

Definition example_running : FTNoIR_Filter :=
  {| first_run := false;
     last_output := constant 2;
     last_delta := constant 1;
     last_noise := constant 1;
     dt_ := 0;
     sample_timer := start (seconds 1);
     filter_timer := start (seconds 1) |}.

Definition example_now : readings :=
  {| init_sample_start := seconds 2;
     init_filter_start := seconds 2;
     sample_elapsed := seconds 3;
     filter_elapsed := seconds 3;
     sample_start := seconds 3;
     filter_start := seconds 3 |}.

(** ** The same code in binary64

    The definitions above once more, with every operation on [double] the
    operation of IEEE 754 binary64 (round to nearest even, infinities and
    NaN included) and every comparison the comparison of C++ (false on a
    NaN).  [std::pow] is a function of the C library and a parameter here;
    the C standard fixes [pow(0, y) = 0] for [y > 0]. *)

Module Binary64.

Local Open Scope float_scope.

(** A [double[6]]. *)
Definition vec : Type := nat -> float.

(** The assignment [a[i] = x]. *)
Definition upd (a : vec) (i : nat) (x : float) : vec :=
  fun j => if Nat.eqb j i then x else a j.

(** [std::min<double>(a, b)] is [(b < a) ? b : a]. *)
Definition std_min (a b : float) : float := if b <? a then b else a.

(** [std::max(a, b)] is [(a < b) ? b : a]. *)
Definition std_max (a b : float) : float := if a <? b then b else a.

(** [std::fabs] *)
Definition fabs (x : float) : float := abs x.

(** The conversion of a [long long] to [double] (to the nearest), for a
    value below [2^63] in magnitude. *)
Definition of_long_long (z : Z) : float :=
  if (z <? 0)%Z then - of_uint63 (Uint63.of_Z (- z))
  else of_uint63 (Uint63.of_Z z).

(** [double elapsed_seconds() const] *)
Definition elapsed_seconds (t : Timer) (cur : timespec) : float :=
  of_long_long (elapsed t cur) * 1e-9.

(** The current values of the three sliders. *)
Record settings : Type := {
  kMinSmoothing : float;
  kMaxSmoothing : float;
  kSmoothingScaleCurve : float
}.

(** The data members of [class FTNoIR_Filter] that [filter] uses. *)
Record FTNoIR_Filter : Type := {
  first_run : bool;
  last_output : vec;
  last_delta : vec;
  last_noise : vec;
  dt_ : float;
  sample_timer : Timer;
  filter_timer : Timer
}.

(** [static const double c[] = { 5, 5, 3, 1, 1, 1 };] *)
Definition c (i : nat) : float :=
  match i with
  | 0%nat => 5
  | 1%nat => 5
  | 2%nat => 3
  | 3%nat => 1
  | 4%nat => 1
  | 5%nat => 1
  | _ => 0
  end.

(** Lines 37-43: one turn of the initialisation loop. *)
Definition init_axis (input : vec) (i : nat) (f : FTNoIR_Filter)
  : FTNoIR_Filter :=
  {| first_run := first_run f;
     last_output := upd (last_output f) i (input i);
     last_delta := upd (last_delta f) i 0;
     last_noise := upd (last_noise f) i 0;
     dt_ := 0;
     sample_timer := sample_timer f;
     filter_timer := filter_timer f |}.

(** Lines 32-44: [if (first_run) { ... }]. *)
Definition initialise (f : FTNoIR_Filter) (now : readings) (input : vec)
  : FTNoIR_Filter :=
  if first_run f then
    for6 (init_axis input)
      {| first_run := false;
         last_output := last_output f;
         last_delta := last_delta f;
         last_noise := last_noise f;
         dt_ := dt_ f;
         sample_timer := start (init_sample_start now);
         filter_timer := start (init_filter_start now) |}
  else f.

(** Lines 46-53, with [n] turns remaining from index [i] on. *)
Fixpoint scan (n i : nat) (last input : vec) : bool :=
  match n with
  | O => false
  | S n' =>
      if 1e-4 <? fabs (last i - input i) then true
      else scan n' (S i) last input
  end.

Definition new_sample (last input : vec) : bool := scan 6 0 last input.

(** The locals of one turn of the main loop (lines 81-97). *)
Record axis_locals : Type := {
  delta : float;
  next_delta : float;
  noise : float;
  next_noise : float;
  norm_noise : float;
  smoothing : float;
  RC : float;
  alpha : float;
  next_output : float
}.

(** Line 87. *)
Definition normalise (noise last_noise_i : float) : float :=
  if last_noise_i <? 1e-10 then 0
  else std_min (noise / (9 * last_noise_i)) 1.

(** Line 93. *)
Definition RC_of (i : nat) (min_smoothing max_smoothing smoothing : float)
  : float :=
  c i * (min_smoothing + smoothing * (max_smoothing - min_smoothing)).

Section Filter.

(** [std::pow] of the C library. *)
Variable pow : float -> float -> float.

(** The two constants of ftnoir_filter_ewma2.h. *)
Variables delta_RC noise_RC : float.

(** The configuration of one invocation. *)
Variable s : settings.

(** Line 92. *)
Definition smoothing_of (norm_noise smoothing_scale_curve : float) : float :=
  1 - pow norm_noise smoothing_scale_curve.

(** Lines 81-97 on the values of axis [i]. *)
Definition axis_body
    (delta_alpha noise_alpha smoothing_scale_curve min_smoothing
       max_smoothing dt_f : float)
    (i : nat) (input_i last_output_i last_delta_i last_noise_i : float)
  : axis_locals :=
  let delta := input_i - last_output_i in
  let last_delta_i := delta_alpha * delta + (1 - delta_alpha) * last_delta_i in
  let noise := last_delta_i * last_delta_i in
  let last_noise_i := noise_alpha * noise + (1 - noise_alpha) * last_noise_i in
  let norm_noise := normalise noise last_noise_i in
  let smoothing := smoothing_of norm_noise smoothing_scale_curve in
  let RC := RC_of i min_smoothing max_smoothing smoothing in
  let alpha := dt_f / (dt_f + RC) in
  {| delta := delta;
     next_delta := last_delta_i;
     noise := noise;
     next_noise := last_noise_i;
     norm_noise := norm_noise;
     smoothing := smoothing;
     RC := RC;
     alpha := alpha;
     next_output := alpha * input_i + (1 - alpha) * last_output_i |}.

(** Lines 75-98: one turn of the main loop. *)
Definition axis_step
    (delta_alpha noise_alpha smoothing_scale_curve min_smoothing
       max_smoothing dt_f : float)
    (input : vec) (i : nat) (st : FTNoIR_Filter * vec)
  : FTNoIR_Filter * vec :=
  let f := fst st in
  let l := axis_body delta_alpha noise_alpha smoothing_scale_curve
             min_smoothing max_smoothing dt_f i
             (input i) (last_output f i) (last_delta f i) (last_noise f i) in
  ({| first_run := first_run f;
      last_output := upd (last_output f) i (next_output l);
      last_delta := upd (last_delta f) i (next_delta l);
      last_noise := upd (last_noise f) i (next_noise l);
      dt_ := dt_ f;
      sample_timer := sample_timer f;
      filter_timer := filter_timer f |},
   upd (snd st) i (next_output l)).

(** Line 57. *)
Definition dt_s (f : FTNoIR_Filter) (now : readings) (input : vec) : float :=
  if new_sample (last_output f) input
  then elapsed_seconds (sample_timer f) (sample_elapsed now)
  else 0.

(** Line 58. *)
Definition dt_f (f : FTNoIR_Filter) (now : readings) : float :=
  elapsed_seconds (filter_timer f) (filter_elapsed now).

(** Lines 60-62. *)
Definition restart (f : FTNoIR_Filter) (now : readings) (input : vec)
  : FTNoIR_Filter :=
  {| first_run := first_run f;
     last_output := last_output f;
     last_delta := last_delta f;
     last_noise := last_noise f;
     dt_ := dt_ f;
     sample_timer :=
       if new_sample (last_output f) input
       then start (sample_start now) else sample_timer f;
     filter_timer := start (filter_start now) |}.

(** Lines 65-66. *)
Definition delta_alpha (dt_s : float) : float := dt_s / (dt_s + delta_RC).
Definition noise_alpha (dt_s : float) : float := dt_s / (dt_s + noise_RC).

(** Lines 69-72. *)
Definition smoothing_scale_curve : float := kSmoothingScaleCurve s.
Definition min_smoothing : float := kMinSmoothing s.
Definition max_smoothing : float := std_max min_smoothing (kMaxSmoothing s).

(** Lines 46-98 on a filter that has been through lines 32-44. *)
Definition run (f : FTNoIR_Filter) (now : readings) (input output : vec)
  : FTNoIR_Filter * vec :=
  let dt_s := dt_s f now input in
  let dt_f := dt_f f now in
  let f := restart f now input in
  for6 (axis_step (delta_alpha dt_s) (noise_alpha dt_s)
          smoothing_scale_curve min_smoothing max_smoothing dt_f input)
       (f, output).

(** [void FTNoIR_Filter::filter(const double *input, double *output)] *)
Definition filter (f : FTNoIR_Filter) (now : readings) (input output : vec)
  : FTNoIR_Filter * vec :=
  run (initialise f now input) now input output.

(** The locals of the turn of axis [i] in the invocation. *)
Definition locals (f : FTNoIR_Filter) (now : readings) (input : vec)
    (i : nat) : axis_locals :=
  let g := initialise f now input in
  let dt_s := dt_s g now input in
  axis_body (delta_alpha dt_s) (noise_alpha dt_s)
    smoothing_scale_curve min_smoothing max_smoothing (dt_f g now) i
    (input i) (last_output g i) (last_delta g i) (last_noise g i).

End Filter.

(** Values to run the definitions on. *)
Definition constant (x : float) : vec := fun _ => x.

(** Settings within the range of the sliders, and settings of 0. *)
Definition example_settings : settings :=
  {| kMinSmoothing := 0.02; kMaxSmoothing := 0.7; kSmoothingScaleCurve := 0.8 |}.

Definition narrow_settings : settings :=
  {| kMinSmoothing := 0.03; kMaxSmoothing := 0.29; kSmoothingScaleCurve := 0.8 |}.


(** A filter as the constructor leaves it, the arrays holding 7, 8 and 9. *)
Definition fresh : FTNoIR_Filter :=
  {| first_run := true;
     last_output := constant 7;
     last_delta := constant 8;
     last_noise := constant 9;
     dt_ := 0;
     sample_timer := start (seconds 0);
     filter_timer := start (seconds 0) |}.


(** The clock read 100 ns after the first run started its timers. *)
Definition just_after : readings :=
  {| init_sample_start := seconds 2;
     init_filter_start := seconds 2;
     sample_elapsed := {| tv_sec := 2; tv_nsec := 100 |};
     filter_elapsed := {| tv_sec := 2; tv_nsec := 100 |};
     sample_start := {| tv_sec := 2; tv_nsec := 100 |};
     filter_start := {| tv_sec := 2; tv_nsec := 100 |} |}.



End Binary64.

(** ** The clock *)

Lemma conv_nanos (t : Timer) (cur : timespec) :
  conv t cur = (nanos cur - nanos (state t))%Z.
Proof. unfold conv, nanos. lia. Qed.

Lemma elapsed_seconds_nonneg (t : Timer) (cur : timespec) :
  not_after (state t) cur -> 0 <= elapsed_seconds t cur.
Proof.
  unfold not_after, elapsed_seconds, elapsed. intros H.
  rewrite conv_nanos.
  assert (0 <= IZR (nanos cur - nanos (state t))) by (apply IZR_le; lia).
  lra.
Qed.

(** ** Arrays and loops *)

Lemma upd_same (a : vec) (i : nat) (x : R) : upd a i x i = x.
Proof. unfold upd. now rewrite Nat.eqb_refl. Qed.

Lemma upd_other (a : vec) (i j : nat) (x : R) : j <> i -> upd a i x j = a j.
Proof.
  intros H. unfold upd. destruct (Nat.eqb_spec j i); [contradiction | easy].
Qed.

Section MainLoop.

Variables da na curve mn mx dtf : R.
Variable input : vec.

Let step := axis_step da na curve mn mx dtf input.
Let loop (l : list nat) (st : FTNoIR_Filter * vec) :=
  fold_left (fun acc i => step i acc) l st.

Lemma axis_step_same (i : nat) (st : FTNoIR_Filter * vec) :
  chan (step i st) i = chan_step da na curve mn mx dtf input i (chan st i).
Proof.
  unfold step, axis_step, chan, chan_step. cbn [fst snd last_output last_delta last_noise].
  now rewrite !upd_same.
Qed.

Lemma axis_step_other (i j : nat) (st : FTNoIR_Filter * vec) :
  j <> i -> chan (step i st) j = chan st j.
Proof.
  intros H. unfold step, axis_step, chan. cbn [fst snd last_output last_delta last_noise].
  now rewrite !upd_other by exact H.
Qed.

Lemma axis_step_frame (i : nat) (st : FTNoIR_Filter * vec) :
  first_run (fst (step i st)) = first_run (fst st)
  /\ sample_timer (fst (step i st)) = sample_timer (fst st)
  /\ filter_timer (fst (step i st)) = filter_timer (fst st).
Proof. now unfold step, axis_step. Qed.

Lemma loop_skips (l : list nat) (j : nat) :
  ~ In j l -> forall st, chan (loop l st) j = chan st j.
Proof.
  induction l as [| i l IH]; intros Hj st; [reflexivity |].
  cbn [loop fold_left]. fold (loop l (step i st)).
  rewrite IH by (intros Hin; apply Hj; now right).
  apply axis_step_other. intros ->. apply Hj. now left.
Qed.

Lemma loop_visits (l : list nat) (j : nat) :
  NoDup l -> In j l ->
  forall st,
    chan (loop l st) j = chan_step da na curve mn mx dtf input j (chan st j).
Proof.
  induction l as [| i l IH]; intros Hnd Hin st; [destruct Hin |].
  inversion Hnd as [| ? ? Hi Hl]; subst.
  cbn [loop fold_left]. fold (loop l (step i st)).
  destruct Hin as [-> | Hin].
  - rewrite loop_skips by exact Hi. apply axis_step_same.
  - rewrite IH by assumption.
    rewrite axis_step_other; [reflexivity |].
    intros ->. contradiction.
Qed.

Lemma loop_frame (l : list nat) :
  forall st,
    first_run (fst (loop l st)) = first_run (fst st)
    /\ sample_timer (fst (loop l st)) = sample_timer (fst st)
    /\ filter_timer (fst (loop l st)) = filter_timer (fst st).
Proof.
  induction l as [| i l IH]; intros st; [now repeat split |].
  cbn [loop fold_left]. fold (loop l (step i st)).
  destruct (IH (step i st)) as (-> & -> & ->). apply axis_step_frame.
Qed.

(** Each turn of the main loop reads and writes its own axis only: after
    the loop, axis [j] holds what its own turn computed from the values
    the loop started with. *)
Lemma for6_axis_step (j : nat) (st : FTNoIR_Filter * vec) :
  (j < 6)%nat ->
  chan (for6 step st) j
  = chan_step da na curve mn mx dtf input j (chan st j).
Proof.
  intros Hj. unfold for6. apply (loop_visits (seq 0 6)).
  - apply seq_NoDup.
  - apply in_seq. lia.
Qed.

End MainLoop.

(** ** The first run *)

Lemma initialise_later (f : FTNoIR_Filter) (now : readings) (input : vec) :
  first_run f = false -> initialise f now input = f.
Proof. intros H. unfold initialise. now rewrite H. Qed.

Lemma initialise_first (f : FTNoIR_Filter) (now : readings) (input : vec) :
  first_run f = true ->
  let g := initialise f now input in
  first_run g = false
  /\ sample_timer g = start (init_sample_start now)
  /\ filter_timer g = start (init_filter_start now)
  /\ forall i, (i < 6)%nat ->
       last_output g i = input i /\ last_delta g i = 0 /\ last_noise g i = 0.
Proof.
  intros H. unfold initialise. rewrite H. cbv zeta.
  repeat split; try reflexivity;
    do 6 (destruct i as [| i]; [reflexivity |]); lia.
Qed.

Lemma initialise_done (f : FTNoIR_Filter) (now : readings) (input : vec) :
  first_run (initialise f now input) = false.
Proof.
  destruct (first_run f) eqn:E.
  - now apply initialise_first.
  - now rewrite initialise_later.
Qed.

(** ** The arithmetic of one turn *)

Lemma std_min_Rmin (a b : R) : std_min a b = Rmin a b.
Proof.
  unfold std_min, Rmin.
  destruct (Rlt_dec b a), (Rle_dec a b); lra.
Qed.

Lemma std_max_Rmax (a b : R) : std_max a b = Rmax a b.
Proof.
  unfold std_max, Rmax.
  destruct (Rlt_dec a b), (Rle_dec a b); lra.
Qed.

Lemma pow_zero_base (y : R) : 0 < y -> pow 0 y = 0.
Proof.
  intros Hy. unfold pow.
  destruct (Req_dec_T y 0); [lra |].
  destruct (Req_dec_T 0 0); [reflexivity | lra].
Qed.

Lemma pow_one_base (y : R) : pow 1 y = 1.
Proof.
  unfold pow.
  destruct (Req_dec_T y 0); [reflexivity |].
  destruct (Req_dec_T 1 0); [lra |].
  unfold Rpower. rewrite ln_1, Rmult_0_r. apply exp_0.
Qed.

Lemma pow_unit_interval (x y : R) :
  0 <= x <= 1 -> 0 <= y -> 0 <= pow x y <= 1.
Proof.
  intros [Hx0 Hx1] Hy. unfold pow.
  destruct (Req_dec_T y 0); [lra |].
  destruct (Req_dec_T x 0); [lra |].
  assert (Hx : 0 < x) by lra.
  unfold Rpower. split.
  - left. apply exp_pos.
  - rewrite <- exp_0. 
    assert (Hln : ln x <= 0).
    { rewrite <- ln_1. destruct (Req_dec_T x 1) as [-> | Hne]; [lra |].
      left. apply ln_increasing; lra. }
    assert (Hle : y * ln x <= 0) by nra.
    destruct Hle as [Hlt | Heq].
    + left. now apply exp_increasing.
    + rewrite Heq. lra.
Qed.

Lemma normalise_unit_interval (noise last_noise_i : R) :
  0 <= noise -> 0 <= normalise noise last_noise_i <= 1.
Proof.
  intros Hn. unfold normalise.
  destruct (Rlt_dec last_noise_i 1e-10) as [Hlt | Hge]; [lra |].
  assert (Hpos : 0 < 9 * last_noise_i) by lra.
  assert (Hq : 0 <= noise / (9 * last_noise_i)).
  { apply Rmult_le_pos; [exact Hn |]. left. now apply Rinv_0_lt_compat. }
  rewrite std_min_Rmin. split.
  - apply Rmin_glb; lra.
  - apply Rmin_r.
Qed.

Lemma smoothing_unit_interval (norm_noise curve : R) :
  0 <= norm_noise <= 1 -> 0 <= curve ->
  0 <= smoothing_of norm_noise curve <= 1.
Proof.
  intros Hn Hc. unfold smoothing_of.
  pose proof (pow_unit_interval norm_noise curve Hn Hc). lra.
Qed.

Lemma c_nonneg (i : nat) : 0 <= c i.
Proof. do 6 (destruct i as [| i]; [simpl; lra |]). simpl. lra. Qed.

Lemma alpha_zero (rc : R) : 0 / (0 + rc) = 0.
Proof. unfold Rdiv. apply Rmult_0_l. Qed.

Lemma alpha_unit_interval (dt rc : R) :
  0 <= dt -> 0 < rc -> 0 <= dt / (dt + rc) <= 1.
Proof.
  intros Hd Hr.
  assert (Hs : 0 < dt + rc) by lra.
  split.
  - apply Rmult_le_pos; [exact Hd |]. left. now apply Rinv_0_lt_compat.
  - apply (Rmult_le_reg_r (dt + rc)); [exact Hs |].
    unfold Rdiv. rewrite Rmult_assoc, Rinv_l by lra. lra.
Qed.

Lemma quadruple_eq (a b c d a' b' c' d' : R) :
  (a, b, c, d) = (a', b', c', d') -> a = a' /\ b = b' /\ c = c' /\ d = d'.
Proof. intros H. inversion H. now repeat split. Qed.

(** ** One invocation, axis by axis *)

Section Invocation.

Variables delta_RC noise_RC : R.
Variable s : settings.
Variables (f : FTNoIR_Filter) (now : readings) (input output : vec).

Lemma filter_chan (i : nat) :
  (i < 6)%nat ->
  chan (filter delta_RC noise_RC s f now input output) i
  = chan_step
      (delta_alpha delta_RC (dt_s (initialise f now input) now input))
      (noise_alpha noise_RC (dt_s (initialise f now input) now input))
      (smoothing_scale_curve s) (min_smoothing s) (max_smoothing s)
      (dt_f (initialise f now input) now) input i
      (chan (restart (initialise f now input) now input, output) i).
Proof.
  intros Hi. unfold filter, run. now apply for6_axis_step.
Qed.

(** The filter and the output after the call hold, on each axis, what
    [locals] says the turn of that axis computes. *)
Lemma filter_axis (i : nat) :
  (i < 6)%nat ->
  last_output (fst (filter delta_RC noise_RC s f now input output)) i
  = next_output (locals delta_RC noise_RC s f now input i)
  /\ last_delta (fst (filter delta_RC noise_RC s f now input output)) i
     = next_delta (locals delta_RC noise_RC s f now input i)
  /\ last_noise (fst (filter delta_RC noise_RC s f now input output)) i
     = next_noise (locals delta_RC noise_RC s f now input i)
  /\ snd (filter delta_RC noise_RC s f now input output) i
     = next_output (locals delta_RC noise_RC s f now input i).
Proof.
  intros Hi. pose proof (filter_chan i Hi) as H.
  apply quadruple_eq in H. exact H.
Qed.

Lemma filter_first_run :
  first_run (fst (filter delta_RC noise_RC s f now input output)) = false.
Proof.
  unfold filter, run, for6.
  destruct (loop_frame
              (delta_alpha delta_RC (dt_s (initialise f now input) now input))
              (noise_alpha noise_RC (dt_s (initialise f now input) now input))
              (smoothing_scale_curve s) (min_smoothing s)
              (max_smoothing s) (dt_f (initialise f now input) now) input
              (seq 0 6)
              (restart (initialise f now input) now input, output))
    as (H & _).
  rewrite H. cbn [fst restart first_run]. apply initialise_done.
Qed.

End Invocation.

(** ** The sample-change detector *)

Lemma scan_true_iff (n i : nat) (last input : vec) :
  scan n i last input = true
  <-> exists k, (i <= k < i + n)%nat /\ fabs (last k - input k) > 1e-4.
Proof.
  revert i. induction n as [| n IH]; intros i; cbn [scan].
  - split; [discriminate | intros (k & Hk & _); lia].
  - destruct (Rgt_dec (fabs (last i - input i)) 1e-4) as [Hgt | Hle].
    + split; [intros _ | reflexivity]. exists i. split; [lia | exact Hgt].
    + rewrite IH. split; intros (k & Hk & Hd).
      * exists k. split; [lia | exact Hd].
      * exists k. split; [| exact Hd].
        destruct (Nat.eq_dec k i) as [-> | Hne]; [contradiction | lia].
Qed.

Lemma new_sample_false_iff (last input : vec) :
  new_sample last input = false
  <-> forall k, (k < 6)%nat -> fabs (last k - input k) <= 1e-4.
Proof.
  unfold new_sample. split.
  - intros H k Hk. apply Rnot_gt_le. intros Hgt.
    assert (scan 6 0 last input = true) as E
        by (apply scan_true_iff; exists k; split; [lia | exact Hgt]).
    congruence.
  - intros H. apply not_true_is_false. intros E.
    apply scan_true_iff in E. destruct E as (k & Hk & Hgt).
    specialize (H k ltac:(lia)). lra.
Qed.

Lemma new_sample_same (last input : vec) :
  (forall k, (k < 6)%nat -> input k = last k) -> new_sample last input = false.
Proof.
  intros H. apply new_sample_false_iff. intros k Hk.
  rewrite (H k Hk). unfold fabs.
  replace (last k - last k) with 0 by ring. rewrite Rabs_R0. lra.
Qed.

(** ** An invocation without a new sample *)

Section NoNewSample.

Variables delta_RC noise_RC : R.
Variable s : settings.
Variables (g : FTNoIR_Filter) (now : readings) (input : vec).

Hypothesis unchanged : new_sample (last_output g) input = false.

Lemma dt_s_zero : dt_s g now input = 0.
Proof. unfold dt_s. now rewrite unchanged. Qed.

Lemma delta_alpha_zero : delta_alpha delta_RC (dt_s g now input) = 0.
Proof. rewrite dt_s_zero. apply alpha_zero. Qed.

Lemma noise_alpha_zero : noise_alpha noise_RC (dt_s g now input) = 0.
Proof. rewrite dt_s_zero. apply alpha_zero. Qed.

End NoNewSample.

Lemma locals_frozen (delta_RC noise_RC : R) (s : settings)
    (f : FTNoIR_Filter) (now : readings) (input : vec) (i : nat) :
  new_sample (last_output (initialise f now input)) input = false ->
  next_delta (locals delta_RC noise_RC s f now input i)
  = last_delta (initialise f now input) i
  /\ next_noise (locals delta_RC noise_RC s f now input i)
     = last_noise (initialise f now input) i.
Proof.
  intros H. unfold locals, axis_body. cbn [next_delta next_noise].
  rewrite (delta_alpha_zero delta_RC _ _ _ H).
  rewrite (noise_alpha_zero noise_RC _ _ _ H).
  split; ring.
Qed.

(** ** The properties of the filter *)

(** C4: the sample-change detector reports a change exactly when some axis
    [i] among the six has [|input[i] - last_output[i]| > 1e-4], with the one
    threshold for every axis.  It is a function of the six entries of the
    two arrays only, and lines 46-62, which use its answer, leave
    [last_output], [last_delta] and [last_noise] as they were. *)
Theorem new_sample_iff (last input : vec) :
  (new_sample last input = true
   <-> exists i, (i < 6)%nat /\ Rabs (input i - last i) > 1e-4)
  /\ (forall last' input',
        (forall i, (i < 6)%nat -> last' i = last i /\ input' i = input i) ->
        new_sample last' input' = new_sample last input)
  /\ (forall f now,
        last_output (restart f now input) = last_output f
        /\ last_delta (restart f now input) = last_delta f
        /\ last_noise (restart f now input) = last_noise f).
Proof.
  assert (Hiff : forall a b : vec,
             new_sample a b = true
             <-> exists i, (i < 6)%nat /\ Rabs (b i - a i) > 1e-4).
  { intros a b. unfold new_sample. rewrite scan_true_iff. unfold fabs.
    split; intros (k & Hk & Hd); exists k;
      (split; [lia | now rewrite Rabs_minus_sym]). }
  split; [apply Hiff |]. split; [| now intros f now].
  intros last' input' Hag.
  destruct (new_sample last input) eqn:E.
  - apply Hiff in E. destruct E as (i & Hi & Hd).
    apply Hiff. exists i. split; [exact Hi |].
    destruct (Hag i Hi) as [-> ->]. exact Hd.
  - apply not_true_is_false. intros E'.
    apply Hiff in E'. destruct E' as (i & Hi & Hd).
    destruct (Hag i Hi) as [Hl Hin]. rewrite Hl, Hin in Hd.
    assert (new_sample last input = true) by (apply Hiff; now exists i).
    congruence.
Qed.

(** C3: in an invocation in which the detector reports no change,
    [dt_s] is 0, [delta_alpha] and [noise_alpha] are 0, and the main loop
    leaves [last_delta[i]] and [last_noise[i]] on every axis as they were
    when it started; for a filter that has run before, these are the values
    they had before the invocation. *)
Theorem no_change_freezes_statistics (delta_RC noise_RC : R) (s : settings)
    (f : FTNoIR_Filter) (now : readings) (input output : vec) :
  new_sample (last_output (initialise f now input)) input = false ->
  dt_s (initialise f now input) now input = 0
  /\ delta_alpha delta_RC (dt_s (initialise f now input) now input) = 0
  /\ noise_alpha noise_RC (dt_s (initialise f now input) now input) = 0
  /\ (forall i, (i < 6)%nat ->
        last_delta (fst (filter delta_RC noise_RC s f now input output)) i
        = last_delta (initialise f now input) i
        /\ last_noise (fst (filter delta_RC noise_RC s f now input output)) i
           = last_noise (initialise f now input) i)
  /\ (first_run f = false ->
      forall i, (i < 6)%nat ->
        last_delta (fst (filter delta_RC noise_RC s f now input output)) i
        = last_delta f i
        /\ last_noise (fst (filter delta_RC noise_RC s f now input output)) i
           = last_noise f i).
Proof.
  intros H.
  assert (Hloop : forall i, (i < 6)%nat ->
            last_delta (fst (filter delta_RC noise_RC s f now input output)) i
            = last_delta (initialise f now input) i
            /\ last_noise
                 (fst (filter delta_RC noise_RC s f now input output)) i
               = last_noise (initialise f now input) i).
  { intros i Hi.
    destruct (filter_axis delta_RC noise_RC s f now input output i Hi)
      as (_ & -> & -> & _).
    now apply locals_frozen. }
  split; [now apply dt_s_zero |].
  split; [now apply delta_alpha_zero |].
  split; [now apply noise_alpha_zero |].
  split; [exact Hloop |].
  intros Hf i Hi. destruct (Hloop i Hi) as (Hd & Hn).
  rewrite (initialise_later f now input Hf) in Hd, Hn. now split.
Qed.

Lemma no_change_freezes_statistics_example :
  new_sample (last_output (initialise example_running example_now
                             (constant 2.00005))) (constant 2.00005) = false
  /\ last_noise (fst (filter 1 60 example_settings example_running
                        example_now (constant 2.00005) (constant 0))) 0%nat
     = 1.
Proof.
  assert (H : new_sample (last_output (initialise example_running example_now
                                         (constant 2.00005)))
                (constant 2.00005) = false).
  { apply new_sample_false_iff. intros k _. cbn. unfold fabs, constant.
    rewrite Rabs_left; lra. }
  split; [exact H |].
  destruct (no_change_freezes_statistics 1 60 example_settings
              example_running example_now (constant 2.00005) (constant 0) H)
    as (_ & _ & _ & _ & Hk).
  destruct (Hk eq_refl 0%nat) as (_ & Hn); [lia |]. exact Hn.
Defined.

Lemma max_smoothing_clamped (s : settings) :
  min_smoothing s <= max_smoothing s.
Proof.
  unfold max_smoothing. rewrite std_max_Rmax. apply Rmax_l.
Qed.

Lemma locals_norm_noise_range (delta_RC noise_RC : R) (s : settings)
    (f : FTNoIR_Filter) (now : readings) (input : vec) (i : nat) :
  0 <= norm_noise (locals delta_RC noise_RC s f now input i) <= 1.
Proof.
  unfold locals, axis_body. cbn [norm_noise].
  apply normalise_unit_interval. apply Rle_0_sqr.
Qed.

Lemma locals_smoothing_range (delta_RC noise_RC : R) (s : settings)
    (f : FTNoIR_Filter) (now : readings) (input : vec) (i : nat) :
  0 <= kSmoothingScaleCurve s ->
  0 <= smoothing (locals delta_RC noise_RC s f now input i) <= 1.
Proof.
  intros Hc.
  pose proof (locals_norm_noise_range delta_RC noise_RC s f now input i)
    as Hn.
  unfold locals, axis_body in *. cbn [norm_noise smoothing] in *.
  now apply smoothing_unit_interval.
Qed.

(** C6: for [norm_noise] in [[0,1]] and a curve exponent above 0, the
    smoothing fraction [1 - pow(norm_noise, smoothing_scale_curve)] of line
    92 lies in [[0,1]]; it is 1 at [norm_noise = 0] and 0 at
    [norm_noise = 1].  The [norm_noise] of an invocation is in [[0,1]], so
    the smoothing fraction of every axis of every invocation is too. *)
Theorem smoothing_fraction (norm_noise_i curve : R) :
  0 <= norm_noise_i <= 1 -> 0 < curve ->
  0 <= smoothing_of norm_noise_i curve <= 1
  /\ smoothing_of 0 curve = 1
  /\ smoothing_of 1 curve = 0
  /\ (forall delta_RC noise_RC s f now input i,
        kSmoothingScaleCurve s = curve ->
        smoothing (locals delta_RC noise_RC s f now input i)
        = smoothing_of (norm_noise (locals delta_RC noise_RC s f now input i))
            curve
        /\ 0 <= smoothing (locals delta_RC noise_RC s f now input i) <= 1).
Proof.
  intros Hn Hc.
  split; [apply smoothing_unit_interval; lra |].
  split; [unfold smoothing_of; rewrite pow_zero_base by exact Hc; ring |].
  split; [unfold smoothing_of; rewrite pow_one_base; ring |].
  intros delta_RC noise_RC s f now input i Hs. split.
  - rewrite <- Hs. reflexivity.
  - apply locals_smoothing_range. lra.
Qed.

Lemma smoothing_fraction_example :
  0 <= 0.25 <= 1 /\ 0 < 0.8
  /\ 0 <= smoothing_of 0.25 0.8 <= 1
  /\ smoothing_of 0 0.8 = 1 /\ smoothing_of 1 0.8 = 0.
Proof.
  split; [lra |]. split; [lra |].
  destruct (smoothing_fraction 0.25 0.8) as (H & H0 & H1 & _);
    [lra | lra |].
  split; [exact H |]. split; [exact H0 | exact H1].
Defined.

(** C9: the normalisation of line 87 never divides by zero.  When the
    updated [last_noise[i]] is below [1e-10], [norm_noise] is 0 and the
    quotient is not taken; otherwise the divisor [9 * last_noise[i]] is
    above 0 and [norm_noise] is [min(noise / (9 * last_noise[i]), 1)]; in
    both cases [norm_noise] lies in [[0,1]].  This holds for every state,
    those with [last_noise[i] >= 0] among them. *)
Theorem norm_noise_safe (delta_RC noise_RC : R) (s : settings)
    (f : FTNoIR_Filter) (now : readings) (input : vec) (i : nat) :
  (next_noise (locals delta_RC noise_RC s f now input i) < 1e-10 ->
     norm_noise (locals delta_RC noise_RC s f now input i) = 0)
  /\ (~ next_noise (locals delta_RC noise_RC s f now input i) < 1e-10 ->
       0 < 9 * next_noise (locals delta_RC noise_RC s f now input i)
       /\ norm_noise (locals delta_RC noise_RC s f now input i)
          = Rmin (noise (locals delta_RC noise_RC s f now input i)
                  / (9 * next_noise (locals delta_RC noise_RC s f now input i)))
              1)
  /\ 0 <= norm_noise (locals delta_RC noise_RC s f now input i) <= 1.
Proof.
  split; [| split; [| apply locals_norm_noise_range]];
    unfold locals, axis_body; cbn [norm_noise next_noise noise];
    unfold normalise; intros H.
  - destruct (Rlt_dec _ 1e-10); [reflexivity | contradiction].
  - destruct (Rlt_dec _ 1e-10); [contradiction |].
    split; [lra | apply std_min_Rmin].
Qed.

(** C10: the weights applied to the time constant are the constants
    5, 5, 3, 1, 1, 1 of the table [c], for the axes 0 to 5 in this order.
    In every invocation the [RC] of axis [i] is [c[i]] times the value
    between the smoothing bounds, and the output of the axis is the blend
    with [alpha = dt_f / (dt_f + RC)]; the table is no function of the
    settings. *)
Theorem axis_weights (delta_RC noise_RC : R) (s : settings)
    (f : FTNoIR_Filter) (now : readings) (input output : vec) (i : nat) :
  (i < 6)%nat ->
  (c 0 = 5 /\ c 1 = 5 /\ c 2 = 3 /\ c 3 = 1 /\ c 4 = 1 /\ c 5 = 1)
  /\ RC (locals delta_RC noise_RC s f now input i)
     = nth i [5; 5; 3; 1; 1; 1] 0
       * (min_smoothing s
          + smoothing (locals delta_RC noise_RC s f now input i)
            * (max_smoothing s - min_smoothing s))
  /\ alpha (locals delta_RC noise_RC s f now input i)
     = dt_f (initialise f now input) now
       / (dt_f (initialise f now input) now
          + RC (locals delta_RC noise_RC s f now input i))
  /\ snd (filter delta_RC noise_RC s f now input output) i
     = alpha (locals delta_RC noise_RC s f now input i) * input i
       + (1 - alpha (locals delta_RC noise_RC s f now input i))
         * last_output (initialise f now input) i.
Proof.
  intros Hi. split; [now repeat split |].
  split; [| split].
  - unfold locals, axis_body. cbn [RC smoothing]. unfold RC_of.
    do 6 (destruct i as [| i]; [reflexivity |]). lia.
  - reflexivity.
  - destruct (filter_axis delta_RC noise_RC s f now input output i Hi)
      as (_ & _ & _ & ->).
    reflexivity.
Qed.

Lemma axis_weights_example :
  (2 < 6)%nat
  /\ RC (locals 1 60 example_settings example_fresh example_now
           (constant 10) 2)
     = 3 * (min_smoothing example_settings
            + smoothing (locals 1 60 example_settings example_fresh
                           example_now (constant 10) 2)
              * (max_smoothing example_settings
                 - min_smoothing example_settings)).
Proof.
  split; [lia |].
  destruct (axis_weights 1 60 example_settings example_fresh example_now
              (constant 10) (constant 0) 2)
    as (_ & H & _); [lia |].
  exact H.
Defined.

Lemma initialise_sample_timer (f : FTNoIR_Filter) (now : readings)
    (input : vec) :
  sample_timer (initialise f now input)
  = if first_run f then start (init_sample_start now) else sample_timer f.
Proof.
  destruct (first_run f) eqn:E.
  - now destruct (initialise_first f now input E) as (_ & -> & _).
  - now rewrite initialise_later.
Qed.

Lemma dt_s_nonneg (f : FTNoIR_Filter) (now : readings) (input : vec) :
  monotonic f now -> 0 <= dt_s (initialise f now input) now input.
Proof.
  intros Hm. unfold dt_s.
  destruct (new_sample _ input); [| lra].
  apply elapsed_seconds_nonneg. rewrite initialise_sample_timer.
  unfold monotonic in Hm. destruct (first_run f); apply Hm.
Qed.

Lemma initialise_noise_nonneg (f : FTNoIR_Filter) (now : readings)
    (input : vec) (i : nat) :
  noise_nonneg f -> (i < 6)%nat -> 0 <= last_noise (initialise f now input) i.
Proof.
  intros Hinv Hi. destruct (first_run f) eqn:E.
  - destruct (initialise_first f now input E) as (_ & _ & _ & Hg).
    destruct (Hg i Hi) as (_ & _ & ->). lra.
  - rewrite initialise_later by exact E. now apply Hinv.
Qed.

Lemma initialise_filter_timer (f : FTNoIR_Filter) (now : readings)
    (input : vec) :
  filter_timer (initialise f now input)
  = if first_run f then start (init_filter_start now) else filter_timer f.
Proof.
  destruct (first_run f) eqn:E.
  - now destruct (initialise_first f now input E) as (_ & _ & -> & _).
  - now rewrite initialise_later.
Qed.

Lemma dt_f_nonneg (f : FTNoIR_Filter) (now : readings) (input : vec) :
  monotonic f now -> 0 <= dt_f (initialise f now input) now.
Proof.
  intros Hm. unfold dt_f.
  apply elapsed_seconds_nonneg. rewrite initialise_filter_timer.
  unfold monotonic in Hm. destruct (first_run f); apply Hm.
Qed.

(** The quotients of an invocation.  With the two time constants and the
    minimum smoothing above 0, a curve exponent that is not negative and a
    monotonic clock, every divisor of lines 65, 66 and 95 is above 0 (the
    divisor of line 87 is above 0 whenever the quotient is taken, for every
    state): on such configurations no quotient of the model is a quotient by
    zero. *)
Lemma divisors_positive (delta_RC noise_RC : R) (s : settings)
    (f : FTNoIR_Filter) (now : readings) (input : vec) (i : nat) :
  0 < delta_RC -> 0 < noise_RC ->
  0 < kMinSmoothing s -> 0 <= kSmoothingScaleCurve s ->
  monotonic f now -> (i < 6)%nat ->
  0 < dt_s (initialise f now input) now input + delta_RC
  /\ 0 < dt_s (initialise f now input) now input + noise_RC
  /\ 0 < dt_f (initialise f now input) now
         + RC (locals delta_RC noise_RC s f now input i).
Proof.
  intros Hd Hn Hmin Hc Hm Hi.
  pose proof (dt_s_nonneg f now input Hm) as Hs.
  pose proof (dt_f_nonneg f now input Hm) as Hf.
  pose proof (locals_smoothing_range delta_RC noise_RC s f now input i Hc)
    as Hsm.
  pose proof (max_smoothing_clamped s) as Hmax.
  assert (Hci : 1 <= c i)
    by (do 6 (destruct i as [| i]; [simpl; lra |]); lia).
  split; [lra |]. split; [lra |].
  unfold locals, axis_body in *. cbn [RC smoothing] in *. unfold RC_of.
  set (sm := smoothing_of _ _) in *.
  unfold min_smoothing in *.
  assert (0 < c i * (kMinSmoothing s + sm * (max_smoothing s - kMinSmoothing s)));
    [| lra].
  apply Rmult_lt_0_compat; [lra | nra].
Qed.

Lemma filter_keeps_noise (delta_RC noise_RC : R) (s : settings)
    (f : FTNoIR_Filter) (now : readings) (input output : vec) (i : nat) :
  0 < noise_RC -> monotonic f now -> noise_nonneg f -> (i < 6)%nat ->
  0 <= last_noise (fst (filter delta_RC noise_RC s f now input output)) i.
Proof.
  intros Hrc Hm Hinv Hi.
  destruct (filter_axis delta_RC noise_RC s f now input output i Hi)
    as (_ & _ & -> & _).
  pose proof (initialise_noise_nonneg f now input i Hinv Hi) as Hln.
  pose proof (dt_s_nonneg f now input Hm) as Hdt.
  pose proof (alpha_unit_interval _ _ Hdt Hrc) as Ha.
  unfold locals, axis_body. cbn [next_noise]. unfold noise_alpha.
  set (a := dt_s (initialise f now input) now input
            / (dt_s (initialise f now input) now input + noise_RC)) in *.
  set (d := delta_alpha delta_RC (dt_s (initialise f now input) now input)
            * (input i - last_output (initialise f now input) i)
            + (1 - delta_alpha delta_RC
                     (dt_s (initialise f now input) now input))
              * last_delta (initialise f now input) i).
  pose proof (Rle_0_sqr d) as Hd. unfold Rsqr in Hd.
  assert (0 <= a * (d * d)) by (apply Rmult_le_pos; lra).
  assert (0 <= (1 - a) * last_noise (initialise f now input) i)
    by (apply Rmult_le_pos; lra).
  lra.
Qed.

(** The invariant along any number of calls, each with the settings it
    reads. *)
Lemma filter_all_keeps_noise (delta_RC noise_RC : R) (calls : list call) :
  0 < noise_RC ->
  forall st,
    monotonic_all delta_RC noise_RC st calls ->
    noise_nonneg (fst st) ->
    noise_nonneg (fst (filter_all delta_RC noise_RC st calls)).
Proof.
  intros Hrc. induction calls as [| k rest IH]; intros st Hm Hinv.
  - exact Hinv.
  - cbn [filter_all]. destruct Hm as [Hk Hrest].
    apply IH; [exact Hrest |].
    intros _ i Hi. now apply filter_keeps_noise.
Qed.

(** C7: [last_noise[i] >= 0] on every axis is an invariant of the filter:
    it holds after the first invocation and every invocation keeps it.
    The noise time constant is above 0 and the clock is monotonic, so
    [noise_alpha] is a weight in [[0,1]] and line 85 blends the two
    quantities [noise >= 0] and [last_noise[i] >= 0]. *)
Theorem last_noise_nonneg (delta_RC noise_RC : R) (s : settings)
    (f : FTNoIR_Filter) (now : readings) (input output : vec) :
  0 < noise_RC -> monotonic f now -> noise_nonneg f ->
  first_run (fst (filter delta_RC noise_RC s f now input output)) = false
  /\ (forall i, (i < 6)%nat ->
        0 <= last_noise (fst (filter delta_RC noise_RC s f now input output)) i)
  /\ noise_nonneg (fst (filter delta_RC noise_RC s f now input output)).
Proof.
  intros Hrc Hm Hinv.
  split; [apply filter_first_run |].
  split; [| intros _]; intros i Hi; now apply filter_keeps_noise.
Qed.

Lemma last_noise_nonneg_example :
  0 < 60 /\ monotonic example_running example_now
  /\ noise_nonneg example_running
  /\ 0 <= last_noise (fst (filter 1 60 example_settings example_running
                             example_now (constant 10) (constant 0))) 4%nat.
Proof.
  assert (Hm : monotonic example_running example_now)
    by (unfold monotonic, not_after, nanos; cbn; lia).
  assert (Hn : noise_nonneg example_running)
    by (intros _ i _; cbn; unfold constant; lra).
  split; [lra |]. split; [exact Hm |]. split; [exact Hn |].
  destruct (last_noise_nonneg 1 60 example_settings example_running
              example_now (constant 10) (constant 0))
    as (_ & H & _); [lra | exact Hm | exact Hn |].
  apply H. lia.
Defined.

(** ** More on the timer *)

(** X1: For readings as POSIX gives them, the timer measures a time that is not
    negative exactly when the reading is not before, as a pair (seconds,
    nanoseconds), the reading the timer was started with; it measures 0 for
    that very reading only. *)
Theorem elapsed_of_normal_readings (a b : timespec) :
  normal a -> normal b ->
  (lex_le a b <-> (0 <= elapsed (start a) b)%Z)
  /\ (elapsed (start a) b = 0%Z <-> a = b).
Proof.
  unfold normal, lex_le, elapsed, conv, start. cbn [state].
  destruct a as [sa na], b as [sb nb]. cbn [tv_sec tv_nsec].
  intros Ha Hb. split; split.
  - intros [H | [H1 H2]]; nia.
  - intros H. destruct (Z.lt_trichotomy sa sb) as [Hlt | [Heq | Hgt]].
    + now left.
    + right. split; [exact Heq | nia].
    + nia.
  - intros H. assert (sa = sb) by nia. subst. f_equal. lia.
  - intros H. injection H as -> ->. lia.
Qed.

Lemma elapsed_of_normal_readings_example :
  normal (seconds 1) /\ normal (seconds 3)
  /\ (0 <= elapsed (start (seconds 1)) (seconds 3))%Z.
Proof.
  assert (H1 : normal (seconds 1)) by (unfold normal; cbn; lia).
  assert (H3 : normal (seconds 3)) by (unfold normal; cbn; lia).
  split; [exact H1 |]. split; [exact H3 |].
  destruct (elapsed_of_normal_readings (seconds 1) (seconds 3) H1 H3)
    as [[H _] _].
  apply H. left. cbn. lia.
Defined.

(** X2: Restarting a timer loses no time: the nanoseconds a timer measures
    at a reading are those it measures at an earlier reading plus those a
    timer started at that earlier reading measures. *)
Theorem elapsed_additive (t : Timer) (b cur : timespec) :
  elapsed t cur = (elapsed t b + elapsed (start b) cur)%Z.
Proof.
  unfold elapsed. rewrite !conv_nanos. cbn [start state]. lia.
Qed.

(** X3: [elapsed_ms] rounds the nanoseconds toward zero.  When the count of
    milliseconds is one a [long] of [w] bits holds, the milliseconds
    returned are never further than the nanoseconds from 0, and differ from
    them by less than a millisecond. *)
Theorem elapsed_ms_truncates (w : Z) (t : Timer) (cur : timespec) :
  (0 < w)%Z ->
  (- 2 ^ (w - 1) <= elapsed_ms t cur < 2 ^ (w - 1))%Z ->
  (Z.abs (1000000 * elapsed_ms_long w t cur) <= Z.abs (elapsed t cur)
   /\ Z.abs (elapsed t cur - 1000000 * elapsed_ms_long w t cur) < 1000000
   /\ (0 <= elapsed t cur ->
       1000000 * elapsed_ms_long w t cur <= elapsed t cur
       < 1000000 * (elapsed_ms_long w t cur + 1)))%Z.
Proof.
  intros Hw Hfit.
  assert (Hsame : elapsed_ms_long w t cur = elapsed_ms t cur).
  { unfold elapsed_ms_long, to_signed.
    assert (Hp : (2 ^ w = 2 * 2 ^ (w - 1))%Z).
    { replace w with (Z.succ (w - 1)) at 1 by lia.
      rewrite Z.pow_succ_r by lia. reflexivity. }
    rewrite Z.mod_small by lia. lia. }
  rewrite Hsame. clear Hsame Hfit.
  unfold elapsed_ms. set (e := elapsed t cur).
  pose proof (Z.quot_rem' e 1000000) as Hqr.
  assert (Hrem : (Z.abs (Z.rem e 1000000) < 1000000)%Z)
    by (apply Z.rem_bound_abs; lia).
  destruct (Z_le_gt_dec 0 e) as [Hpos | Hneg].
  - pose proof (Z.rem_nonneg e 1000000 ltac:(lia) Hpos).
    pose proof (Z.quot_pos e 1000000 Hpos ltac:(lia)).
    repeat split; lia.
  - pose proof (Z.rem_nonpos e 1000000 ltac:(lia) ltac:(lia)).
    assert ((Z.quot e 1000000 <= 0)%Z) by lia.
    repeat split; lia.
Qed.

Lemma elapsed_ms_truncates_example :
  (0 < 32)%Z
  /\ (1000000 * elapsed_ms_long 32 (start (seconds 1))
                  {| tv_sec := 3; tv_nsec := 1500000 |}
      <= elapsed (start (seconds 1)) {| tv_sec := 3; tv_nsec := 1500000 |}
      < 1000000 * (elapsed_ms_long 32 (start (seconds 1))
                     {| tv_sec := 3; tv_nsec := 1500000 |} + 1))%Z.
Proof.
  split; [lia |].
  destruct (elapsed_ms_truncates 32 (start (seconds 1))
              {| tv_sec := 3; tv_nsec := 1500000 |})
    as (_ & _ & H);
    [lia | vm_compute; split; [discriminate | reflexivity] |].
  apply H. vm_compute. discriminate.
Defined.

(** X4: The conversion to [long] at the end of [elapsed_ms]: a count of
    milliseconds that a [long] of [w] bits holds is returned as it is; from
    [2^(w-1)] milliseconds on (24.8 days for the 32 bits of Windows) and
    below [2^w] the value returned is the count less [2^w], a negative
    number. *)
Theorem elapsed_ms_long_range (w : Z) (t : Timer) (cur : timespec) :
  (0 < w)%Z ->
  ((- 2 ^ (w - 1) <= elapsed_ms t cur < 2 ^ (w - 1))%Z ->
   elapsed_ms_long w t cur = elapsed_ms t cur)
  /\ ((2 ^ (w - 1) <= elapsed_ms t cur < 2 ^ w)%Z ->
      elapsed_ms_long w t cur = (elapsed_ms t cur - 2 ^ w)%Z
      /\ (elapsed_ms_long w t cur < 0)%Z).
Proof.
  intros Hw. unfold elapsed_ms_long, to_signed.
  set (m := elapsed_ms t cur).
  assert (Hp : (2 ^ w = 2 * 2 ^ (w - 1))%Z).
  { replace w with (Z.succ (w - 1)) at 1 by lia.
    rewrite Z.pow_succ_r by lia. reflexivity. }
  assert (Hh : (0 < 2 ^ (w - 1))%Z) by (apply Z.pow_pos_nonneg; lia).
  split; intros Hm.
  - rewrite Z.mod_small by lia. lia.
  - assert (E : ((m + 2 ^ (w - 1)) mod 2 ^ w = m + 2 ^ (w - 1) - 2 ^ w)%Z).
    { symmetry. apply Z.mod_unique with (q := 1%Z); lia. }
    rewrite E. lia.
Qed.

Lemma elapsed_ms_long_range_example :
  (0 < 32)%Z
  /\ elapsed_ms_long 32 (start (seconds 0)) (seconds 2147484)
     = (-2147483296)%Z.
Proof.
  split; [lia |].
  destruct (elapsed_ms_long_range 32 (start (seconds 0)) (seconds 2147484))
    as [_ H]; [lia |].
  destruct H as [H _]; [vm_compute; split; [discriminate | reflexivity] |].
  exact H.
Defined.

(** ** The clock of macOS and of Windows *)

Lemma nanos_of_split (n : Z) :
  nanos {| tv_sec := (n / 1000000000)%Z; tv_nsec := (n mod 1000000000)%Z |}
  = n.
Proof.
  unfold nanos. cbn [tv_sec tv_nsec].
  pose proof (Z.div_mod n 1000000000 ltac:(lia)). lia.
Qed.

(** X5: The reading of the macOS [clock_gettime], for a time base with a
    denominator above 0: it is a reading as POSIX gives them, its seconds
    are not negative, and the instant it denotes is the nanosecond count
    [absolute * numer / denom] of line 52, the product taken in
    [uint64_t]. *)
Theorem mach_clock_gettime_reading
    (sTimebaseInfo os_info : mach_timebase_info_data_t) (absolute : Z) :
  (0 < denom (snd (mach_clock_gettime sTimebaseInfo os_info absolute)))%Z ->
  normal (fst (mach_clock_gettime sTimebaseInfo os_info absolute))
  /\ (0 <= tv_sec (fst (mach_clock_gettime sTimebaseInfo os_info absolute)))%Z
  /\ nanos (fst (mach_clock_gettime sTimebaseInfo os_info absolute))
     = (uint64 (absolute
                * numer (snd (mach_clock_gettime sTimebaseInfo os_info
                                absolute)))
        / denom (snd (mach_clock_gettime sTimebaseInfo os_info absolute)))%Z.
Proof.
  unfold mach_clock_gettime. cbn [fst snd].
  set (info := if (denom sTimebaseInfo =? 0)%Z then os_info else sTimebaseInfo).
  intros Hd. split; [| split].
  - unfold normal. cbn [tv_nsec]. apply Z.mod_pos_bound. lia.
  - cbn [tv_sec]. apply Z.div_pos; [| lia].
    apply Z.div_pos; [| exact Hd].
    unfold uint64. apply Z.mod_pos_bound. lia.
  - apply nanos_of_split.
Qed.

Lemma mach_clock_gettime_reading_example :
  (0 < denom (snd (mach_clock_gettime {| numer := 0; denom := 0 |}
                     {| numer := 125; denom := 3 |} 24000000)))%Z
  /\ nanos (fst (mach_clock_gettime {| numer := 0; denom := 0 |}
                   {| numer := 125; denom := 3 |} 24000000))
     = 1000000000%Z.
Proof.
  split; [reflexivity |].
  destruct (mach_clock_gettime_reading {| numer := 0; denom := 0 |}
              {| numer := 125; denom := 3 |} 24000000)
    as (_ & _ & H); [reflexivity |].
  rewrite H. reflexivity.
Defined.

(** X6: Two calls of the macOS [clock_gettime] in turn: the second call keeps
    the time base the first one left, whatever [mach_timebase_info] would
    give it, and, as long as the product of line 52 stays below [2^64], a
    later value of [mach_absolute_time] gives a reading that is not before
    the earlier one, so that a timer started at the first reading measures
    a time that is not negative at the second. *)
Theorem mach_clock_monotonic
    (sTimebaseInfo os_info os_info' : mach_timebase_info_data_t)
    (absolute absolute' : Z) :
  (0 < denom (snd (mach_clock_gettime sTimebaseInfo os_info absolute)))%Z ->
  (0 <= numer (snd (mach_clock_gettime sTimebaseInfo os_info absolute)))%Z ->
  (0 <= absolute <= absolute')%Z ->
  (absolute'
   * numer (snd (mach_clock_gettime sTimebaseInfo os_info absolute))
   < 2 ^ 64)%Z ->
  snd (mach_clock_gettime
         (snd (mach_clock_gettime sTimebaseInfo os_info absolute))
         os_info' absolute')
  = snd (mach_clock_gettime sTimebaseInfo os_info absolute)
  /\ not_after
       (fst (mach_clock_gettime sTimebaseInfo os_info absolute))
       (fst (mach_clock_gettime
               (snd (mach_clock_gettime sTimebaseInfo os_info absolute))
               os_info' absolute'))
  /\ (0 <= elapsed
             (start (fst (mach_clock_gettime sTimebaseInfo os_info absolute)))
             (fst (mach_clock_gettime
                     (snd (mach_clock_gettime sTimebaseInfo os_info absolute))
                     os_info' absolute')))%Z.
Proof.
  unfold mach_clock_gettime at 1 2 3. cbn [fst snd].
  set (info := if (denom sTimebaseInfo =? 0)%Z then os_info else sTimebaseInfo).
  intros Hd Hn Ha Hov.
  assert (Hkeep : (if (denom info =? 0)%Z then os_info' else info) = info).
  { destruct (Z.eqb_spec (denom info) 0); [lia | reflexivity]. }
  unfold mach_clock_gettime. cbn [fst snd]. fold info. rewrite Hkeep.
  assert (Hmono : not_after
            {| tv_sec := (uint64 (absolute * numer info) / denom info
                          / 1000000000)%Z;
               tv_nsec := ((uint64 (absolute * numer info) / denom info)
                           mod 1000000000)%Z |}
            {| tv_sec := (uint64 (absolute' * numer info) / denom info
                          / 1000000000)%Z;
               tv_nsec := ((uint64 (absolute' * numer info) / denom info)
                           mod 1000000000)%Z |}).
  { unfold not_after. rewrite !nanos_of_split. unfold uint64.
    rewrite !Z.mod_small by nia.
    apply Z.div_le_mono; [exact Hd | nia]. }
  split; [reflexivity |]. split; [exact Hmono |].
  unfold elapsed. rewrite conv_nanos. cbn [start state].
  unfold not_after in Hmono. lia.
Qed.

Lemma mach_clock_monotonic_example :
  (0 <= elapsed
          (start (fst (mach_clock_gettime {| numer := 0; denom := 0 |}
                         {| numer := 125; denom := 3 |} 24000000)))
          (fst (mach_clock_gettime {| numer := 125; denom := 3 |}
                  {| numer := 1; denom := 1 |} 48000000)))%Z.
Proof.
  destruct (mach_clock_monotonic {| numer := 0; denom := 0 |}
              {| numer := 125; denom := 3 |} {| numer := 1; denom := 1 |}
              24000000 48000000)
    as (_ & _ & H);
    [reflexivity | discriminate | split; discriminate | reflexivity |].
  exact H.
Defined.

(** X7: The product of line 52 wraps in [uint64_t]: once
    [absolute * numer] reaches [2^64], the reading falls short of the
    nanosecond count [absolute * numer / denom] by [2^64 / denom]
    nanoseconds at least (rounding apart). *)
Theorem mach_clock_overflow
    (sTimebaseInfo os_info : mach_timebase_info_data_t) (absolute : Z) :
  (0 < denom (snd (mach_clock_gettime sTimebaseInfo os_info absolute)))%Z ->
  (2 ^ 64
   <= absolute
      * numer (snd (mach_clock_gettime sTimebaseInfo os_info absolute)))%Z ->
  (nanos (fst (mach_clock_gettime sTimebaseInfo os_info absolute))
   <= (absolute
       * numer (snd (mach_clock_gettime sTimebaseInfo os_info absolute))
       - 2 ^ 64)
      / denom (snd (mach_clock_gettime sTimebaseInfo os_info absolute)))%Z.
Proof.
  unfold mach_clock_gettime. cbn [fst snd].
  set (info := if (denom sTimebaseInfo =? 0)%Z then os_info else sTimebaseInfo).
  intros Hd Hov. rewrite nanos_of_split.
  apply Z.div_le_mono; [exact Hd |].
  unfold uint64.
  pose proof (Z.mod_pos_bound (absolute * numer info) (2 ^ 64) ltac:(lia)).
  pose proof (Z.div_mod (absolute * numer info) (2 ^ 64) ltac:(lia)).
  assert (1 <= absolute * numer info / 2 ^ 64)%Z
    by (apply Z.div_le_lower_bound; lia).
  nia.
Qed.

Lemma mach_clock_overflow_example :
  (nanos (fst (mach_clock_gettime {| numer := 125; denom := 3 |}
                 {| numer := 125; denom := 3 |} 147573952589676413))
   <= 3)%Z.
Proof.
  pose proof (mach_clock_overflow {| numer := 125; denom := 3 |}
                {| numer := 125; denom := 3 |} 147573952589676413
                eq_refl ltac:(vm_compute; discriminate)) as H.
  exact H.
Defined.

(** X8: The reading of the Windows clock denotes the nanosecond count [part] it
    is made of, so a timer started at the reading of one count measures, at
    the reading of another, their difference.  For a count that is not
    negative the reading is as POSIX gives them; for a negative count its
    nanoseconds are not above 0. *)
Theorem timespec_of_part_nanos (part : Z) :
  nanos (timespec_of_part part) = part
  /\ (forall part',
        elapsed (start (timespec_of_part part)) (timespec_of_part part')
        = (part' - part)%Z)
  /\ ((0 <= part)%Z -> normal (timespec_of_part part))
  /\ ((part < 0)%Z -> (tv_nsec (timespec_of_part part) <= 0)%Z).
Proof.
  assert (Hn : forall p, nanos (timespec_of_part p) = p).
  { intros p. unfold nanos, timespec_of_part. cbn [tv_sec tv_nsec].
    pose proof (Z.quot_rem' p 1000000000). lia. }
  split; [apply Hn |]. split; [| split].
  - intros part'. unfold elapsed. rewrite conv_nanos. cbn [start state].
    now rewrite !Hn.
  - intros Hp. unfold normal, timespec_of_part. cbn [tv_nsec].
    apply Z.rem_bound_pos; lia.
  - intros Hp. unfold timespec_of_part. cbn [tv_nsec].
    apply Z.rem_nonpos; lia.
Qed.

(** ** More on one invocation *)

Lemma filter_frame (delta_RC noise_RC : R) (s : settings)
    (f : FTNoIR_Filter) (now : readings) (input output : vec) :
  sample_timer (fst (filter delta_RC noise_RC s f now input output))
  = sample_timer (restart (initialise f now input) now input)
  /\ filter_timer (fst (filter delta_RC noise_RC s f now input output))
     = filter_timer (restart (initialise f now input) now input).
Proof.
  unfold filter, run, for6.
  destruct (loop_frame
              (delta_alpha delta_RC (dt_s (initialise f now input) now input))
              (noise_alpha noise_RC (dt_s (initialise f now input) now input))
              (smoothing_scale_curve s) (min_smoothing s)
              (max_smoothing s) (dt_f (initialise f now input) now) input
              (seq 0 6)
              (restart (initialise f now input) now input, output))
    as (_ & Hs & Hf).
  split; assumption.
Qed.

Lemma filter_beyond (delta_RC noise_RC : R) (s : settings)
    (f : FTNoIR_Filter) (now : readings) (input output : vec) (j : nat) :
  (6 <= j)%nat ->
  chan (filter delta_RC noise_RC s f now input output) j
  = chan (restart (initialise f now input) now input, output) j.
Proof.
  intros Hj. unfold filter, run, for6.
  apply (loop_skips
           (delta_alpha delta_RC (dt_s (initialise f now input) now input))
           (noise_alpha noise_RC (dt_s (initialise f now input) now input))
           (smoothing_scale_curve s) (min_smoothing s)
           (max_smoothing s) (dt_f (initialise f now input) now) input
           (seq 0 6) j).
  rewrite in_seq. lia.
Qed.

Lemma initialise_beyond (f : FTNoIR_Filter) (now : readings) (input : vec)
    (j : nat) :
  (6 <= j)%nat ->
  last_output (initialise f now input) j = last_output f j
  /\ last_delta (initialise f now input) j = last_delta f j
  /\ last_noise (initialise f now input) j = last_noise f j.
Proof.
  intros Hj. unfold initialise. destruct (first_run f); [| now repeat split].
  unfold for6. cbn [seq fold_left init_axis last_output last_delta last_noise].
  repeat split; now rewrite !upd_other by lia.
Qed.

Lemma first_run_not_new (f : FTNoIR_Filter) (now : readings) (input : vec) :
  first_run f = true ->
  new_sample (last_output (initialise f now input)) input = false.
Proof.
  intros Hf. destruct (initialise_first f now input Hf) as (_ & _ & _ & Hg).
  apply new_sample_same. intros k Hk. now destruct (Hg k Hk) as (-> & _).
Qed.

Lemma locals_first_run (delta_RC noise_RC : R) (s : settings)
    (f : FTNoIR_Filter) (now : readings) (input : vec) (i : nat) :
  first_run f = true -> (i < 6)%nat ->
  locals delta_RC noise_RC s f now input i
  = axis_body 0 0 (smoothing_scale_curve s) (min_smoothing s)
      (max_smoothing s)
      (elapsed_seconds (start (init_filter_start now)) (filter_elapsed now))
      i (input i) (input i) 0 0.
Proof.
  intros Hf Hi. unfold locals.
  rewrite (delta_alpha_zero delta_RC _ _ _ (first_run_not_new f now input Hf)).
  rewrite (noise_alpha_zero noise_RC _ _ _ (first_run_not_new f now input Hf)).
  unfold dt_f.
  destruct (initialise_first f now input Hf) as (_ & _ & -> & Hg).
  destruct (Hg i Hi) as (-> & -> & ->). reflexivity.
Qed.

(** X9: Line 97 assigns the one value to [output[i]] and to [last_output[i]]:
    after every invocation the output returned and [last_output] agree on
    the six axes. *)
Theorem output_is_last_output (delta_RC noise_RC : R) (s : settings)
    (f : FTNoIR_Filter) (now : readings) (input output : vec) (i : nat) :
  (i < 6)%nat ->
  snd (filter delta_RC noise_RC s f now input output) i
  = last_output (fst (filter delta_RC noise_RC s f now input output)) i.
Proof.
  intros Hi.
  destruct (filter_axis delta_RC noise_RC s f now input output i Hi)
    as (-> & _ & _ & ->).
  reflexivity.
Qed.

Lemma output_is_last_output_example :
  (1 < 6)%nat
  /\ snd (filter 1 60 example_settings example_running example_now
            (constant 10) (constant 0)) 1%nat
     = last_output (fst (filter 1 60 example_settings example_running
                           example_now (constant 10) (constant 0))) 1%nat.
Proof.
  split; [lia |].
  apply (output_is_last_output 1 60 example_settings example_running
           example_now (constant 10) (constant 0) 1). lia.
Defined.

(** X10: An invocation writes the entries 0 to 5 of its arrays and no other: at
    an index from 6 on, the caller's [output] array and the filter's
    [last_output], [last_delta] and [last_noise] are after the call what
    they were before, on the first run too. *)
Theorem filter_writes_six_entries (delta_RC noise_RC : R) (s : settings)
    (f : FTNoIR_Filter) (now : readings) (input output : vec) (j : nat) :
  (6 <= j)%nat ->
  snd (filter delta_RC noise_RC s f now input output) j = output j
  /\ last_output (fst (filter delta_RC noise_RC s f now input output)) j
     = last_output f j
  /\ last_delta (fst (filter delta_RC noise_RC s f now input output)) j
     = last_delta f j
  /\ last_noise (fst (filter delta_RC noise_RC s f now input output)) j
     = last_noise f j.
Proof.
  intros Hj.
  pose proof (filter_beyond delta_RC noise_RC s f now input output j Hj) as H.
  unfold chan in H. cbn [fst snd restart last_output last_delta last_noise] in H.
  apply quadruple_eq in H. destruct H as (Ho & Hd & Hn & Hout).
  destruct (initialise_beyond f now input j Hj) as (Eo & Ed & En).
  rewrite Ho, Hd, Hn, Hout, Eo, Ed, En. now repeat split.
Qed.

Lemma filter_writes_six_entries_example :
  (6 <= 6)%nat
  /\ snd (filter 1 60 example_settings example_fresh example_now
            (constant 10) (constant 4)) 6%nat = 4
  /\ last_noise (fst (filter 1 60 example_settings example_fresh example_now
                        (constant 10) (constant 4))) 6%nat = 9.
Proof.
  split; [lia |].
  destruct (filter_writes_six_entries 1 60 example_settings example_fresh
              example_now (constant 10) (constant 4) 6)
    as (Ho & _ & _ & Hn); [lia |].
  split; [exact Ho | exact Hn].
Defined.

(** X11: The timers after an invocation (lines 32-36 and 60-62): [first_run] is
    off, the filter timer holds the reading of line 62, and the sample timer
    holds the reading of line 35 on the first run (which never sees a new
    sample), the reading of line 61 when a later invocation sees a new
    sample, and what it held before otherwise. *)
Theorem filter_timers (delta_RC noise_RC : R) (s : settings)
    (f : FTNoIR_Filter) (now : readings) (input output : vec) :
  first_run (fst (filter delta_RC noise_RC s f now input output)) = false
  /\ filter_timer (fst (filter delta_RC noise_RC s f now input output))
     = start (filter_start now)
  /\ sample_timer (fst (filter delta_RC noise_RC s f now input output))
     = if first_run f then start (init_sample_start now)
       else if new_sample (last_output f) input
            then start (sample_start now)
            else sample_timer f.
Proof.
  split; [apply filter_first_run |].
  destruct (filter_frame delta_RC noise_RC s f now input output) as (-> & ->).
  split; [reflexivity |].
  cbn [restart sample_timer].
  destruct (first_run f) eqn:Hf.
  - rewrite (first_run_not_new f now input Hf).
    now destruct (initialise_first f now input Hf) as (_ & -> & _).
  - now rewrite (initialise_later f now input Hf).
Qed.

(** X12: The first invocation reads nothing of what the constructor left: two
    filters that have not run yet, whatever their arrays and timers hold,
    give for the same input, settings and clock readings the same output,
    the same [last_output], [last_delta] and [last_noise] on the six axes,
    and the same timers. *)
Theorem first_invocation_ignores_state (delta_RC noise_RC : R) (s : settings)
    (f f' : FTNoIR_Filter) (now : readings) (input output output' : vec) :
  first_run f = true -> first_run f' = true ->
  (forall i, (i < 6)%nat ->
     snd (filter delta_RC noise_RC s f now input output) i
     = snd (filter delta_RC noise_RC s f' now input output') i
     /\ last_output (fst (filter delta_RC noise_RC s f now input output)) i
        = last_output (fst (filter delta_RC noise_RC s f' now input output')) i
     /\ last_delta (fst (filter delta_RC noise_RC s f now input output)) i
        = last_delta (fst (filter delta_RC noise_RC s f' now input output')) i
     /\ last_noise (fst (filter delta_RC noise_RC s f now input output)) i
        = last_noise (fst (filter delta_RC noise_RC s f' now input output')) i)
  /\ sample_timer (fst (filter delta_RC noise_RC s f now input output))
     = sample_timer (fst (filter delta_RC noise_RC s f' now input output'))
  /\ filter_timer (fst (filter delta_RC noise_RC s f now input output))
     = filter_timer (fst (filter delta_RC noise_RC s f' now input output')).
Proof.
  intros Hf Hf'. split; [| split].
  - intros i Hi.
    destruct (filter_axis delta_RC noise_RC s f now input output i Hi)
      as (-> & -> & -> & ->).
    destruct (filter_axis delta_RC noise_RC s f' now input output' i Hi)
      as (-> & -> & -> & ->).
    rewrite (locals_first_run delta_RC noise_RC s f now input i Hf Hi).
    rewrite (locals_first_run delta_RC noise_RC s f' now input i Hf' Hi).
    now repeat split.
  - destruct (filter_frame delta_RC noise_RC s f now input output) as (-> & _).
    destruct (filter_frame delta_RC noise_RC s f' now input output')
      as (-> & _).
    cbn [restart sample_timer].
    rewrite (first_run_not_new f now input Hf).
    rewrite (first_run_not_new f' now input Hf').
    destruct (initialise_first f now input Hf) as (_ & -> & _).
    now destruct (initialise_first f' now input Hf') as (_ & -> & _).
  - destruct (filter_frame delta_RC noise_RC s f now input output) as (_ & ->).
    now destruct (filter_frame delta_RC noise_RC s f' now input output')
      as (_ & ->).
Qed.

Lemma first_invocation_ignores_state_example :
  first_run example_fresh = true
  /\ first_run (construct (constant 0) (constant 0) (constant 0) 5
                  (seconds 1) (seconds 1)) = true
  /\ filter_timer (fst (filter 1 60 example_settings example_fresh
                          example_now (constant 10) (constant 0)))
     = filter_timer
         (fst (filter 1 60 example_settings
                 (construct (constant 0) (constant 0) (constant 0) 5
                    (seconds 1) (seconds 1))
                 example_now (constant 10) (constant 1))).
Proof.
  split; [reflexivity |]. split; [reflexivity |].
  destruct (first_invocation_ignores_state 1 60 example_settings
              example_fresh
              (construct (constant 0) (constant 0) (constant 0) 5
                 (seconds 1) (seconds 1))
              example_now (constant 10) (constant 0) (constant 1)
              eq_refl eq_refl)
    as (_ & _ & H).
  exact H.
Defined.

(** ** The response of one axis *)

Lemma alpha_below_one (dt rc : R) : 0 <= dt -> 0 < rc -> dt / (dt + rc) < 1.
Proof.
  intros Hd Hr. assert (Hs : 0 < dt + rc) by lra.
  apply (Rmult_lt_reg_r (dt + rc)); [exact Hs |].
  unfold Rdiv. rewrite Rmult_assoc, Rinv_l by lra. lra.
Qed.

Lemma alpha_antitone (dt a b : R) :
  0 <= dt -> 0 < a -> a <= b -> dt / (dt + b) <= dt / (dt + a).
Proof.
  intros Hd Ha Hab. unfold Rdiv.
  apply Rmult_le_compat_l; [exact Hd |].
  apply Rinv_le_contravar; lra.
Qed.

Lemma locals_RC_range (delta_RC noise_RC : R) (s : settings)
    (f : FTNoIR_Filter) (now : readings) (input : vec) (i : nat) :
  0 <= kSmoothingScaleCurve s ->
  c i * min_smoothing s
  <= RC (locals delta_RC noise_RC s f now input i)
  <= RC_of i (min_smoothing s) (max_smoothing s) 1.
Proof.
  intros Hc.
  pose proof (locals_smoothing_range delta_RC noise_RC s f now input i Hc)
    as Hs.
  pose proof (max_smoothing_clamped s) as Hm.
  pose proof (c_nonneg i) as Hci.
  unfold locals, axis_body in *. cbn [RC smoothing] in *. unfold RC_of.
  split; apply Rmult_le_compat_l; try exact Hci; nra.
Qed.

Lemma c_positive (i : nat) : (i < 6)%nat -> 1 <= c i.
Proof.
  intros Hi. do 6 (destruct i as [| i]; [simpl; lra |]). lia.
Qed.

Lemma locals_RC_positive (delta_RC noise_RC : R) (s : settings)
    (f : FTNoIR_Filter) (now : readings) (input : vec) (i : nat) :
  0 < kMinSmoothing s -> 0 <= kSmoothingScaleCurve s -> (i < 6)%nat ->
  0 < c i * min_smoothing s
  /\ 0 < RC (locals delta_RC noise_RC s f now input i).
Proof.
  intros Hmin Hc Hi.
  pose proof (locals_RC_range delta_RC noise_RC s f now input i Hc) as Hr.
  pose proof (c_positive i Hi) as Hci.
  assert (0 < c i * min_smoothing s)
    by (apply Rmult_lt_0_compat; [lra | exact Hmin]).
  split; lra.
Qed.

Lemma locals_alpha_range (delta_RC noise_RC : R) (s : settings)
    (f : FTNoIR_Filter) (now : readings) (input : vec) (i : nat) :
  0 < kMinSmoothing s -> 0 <= kSmoothingScaleCurve s ->
  monotonic f now -> (i < 6)%nat ->
  0 <= alpha (locals delta_RC noise_RC s f now input i) < 1.
Proof.
  intros Hmin Hc Hm Hi.
  destruct (locals_RC_positive delta_RC noise_RC s f now input i Hmin Hc Hi)
    as (_ & Hrc).
  pose proof (dt_f_nonneg f now input Hm) as Hdt.
  change (alpha (locals delta_RC noise_RC s f now input i))
    with (dt_f (initialise f now input) now
          / (dt_f (initialise f now input) now
             + RC (locals delta_RC noise_RC s f now input i))).
  split; [now apply alpha_unit_interval | now apply alpha_below_one].
Qed.

Lemma locals_next_output (delta_RC noise_RC : R) (s : settings)
    (f : FTNoIR_Filter) (now : readings) (input : vec) (i : nat) :
  next_output (locals delta_RC noise_RC s f now input i)
  = alpha (locals delta_RC noise_RC s f now input i) * input i
    + (1 - alpha (locals delta_RC noise_RC s f now input i))
      * last_output (initialise f now input) i.
Proof. reflexivity. Qed.

(** X14: The blend factor of line 95 is a weight in [[0,1]], bounded on
    both sides by the bounds of the time constant: it is at least
    [dt_f / (dt_f + RC1)], with [RC1 = c[i] * (min_smoothing + 1 *
    (max_smoothing - min_smoothing))] the time constant line 93 gives for a
    smoothing of 1, and at most [dt_f / (dt_f + c[i] * min_smoothing)]. *)
Theorem alpha_bounds (delta_RC noise_RC : R) (s : settings)
    (f : FTNoIR_Filter) (now : readings) (input : vec) (i : nat) :
  0 < kMinSmoothing s -> 0 <= kSmoothingScaleCurve s ->
  monotonic f now -> (i < 6)%nat ->
  0 <= alpha (locals delta_RC noise_RC s f now input i) <= 1
  /\ dt_f (initialise f now input) now
     / (dt_f (initialise f now input) now
        + c i * (min_smoothing s + 1 * (max_smoothing s - min_smoothing s)))
     <= alpha (locals delta_RC noise_RC s f now input i)
     <= dt_f (initialise f now input) now
        / (dt_f (initialise f now input) now + c i * min_smoothing s).
Proof.
  intros Hmin Hc Hm Hi.
  pose proof (locals_alpha_range delta_RC noise_RC s f now input i
                Hmin Hc Hm Hi) as Ha.
  split; [lra |].
  destruct (locals_RC_positive delta_RC noise_RC s f now input i Hmin Hc Hi)
    as (Hlow & Hrc).
  pose proof (locals_RC_range delta_RC noise_RC s f now input i Hc) as Hr.
  unfold RC_of in Hr.
  pose proof (dt_f_nonneg f now input Hm) as Hdt.
  change (alpha (locals delta_RC noise_RC s f now input i))
    with (dt_f (initialise f now input) now
          / (dt_f (initialise f now input) now
             + RC (locals delta_RC noise_RC s f now input i))).
  split; apply alpha_antitone; lra.
Qed.

Lemma alpha_bounds_example :
  0 < kMinSmoothing example_settings
  /\ monotonic example_running example_now
  /\ 0 <= alpha (locals 1 60 example_settings example_running example_now
                   (constant 10) 0) <= 1.
Proof.
  assert (Hmin : 0 < kMinSmoothing example_settings) by (cbn; lra).
  assert (Hm : monotonic example_running example_now)
    by (unfold monotonic, not_after, nanos; cbn; lia).
  split; [exact Hmin |]. split; [exact Hm |].
  destruct (alpha_bounds 1 60 example_settings example_running example_now
              (constant 10) 0 Hmin)
    as (H & _); [cbn; lra | exact Hm | lia |].
  exact H.
Defined.

Lemma normalise_quiet (noise_i last_noise_i : R) :
  last_noise_i < 1e-10 -> normalise noise_i last_noise_i = 0.
Proof.
  intros H. unfold normalise.
  destruct (Rlt_dec last_noise_i 1e-10); [reflexivity | contradiction].
Qed.

Lemma normalise_saturates (noise_i last_noise_i : R) :
  1e-10 <= last_noise_i -> 9 * last_noise_i <= noise_i ->
  normalise noise_i last_noise_i = 1.
Proof.
  intros Hl H9. unfold normalise.
  destruct (Rlt_dec last_noise_i 1e-10); [lra |].
  rewrite std_min_Rmin. apply Rmin_right.
  apply (Rmult_le_reg_r (9 * last_noise_i)); [lra |].
  unfold Rdiv. rewrite Rmult_assoc, Rinv_l by lra. lra.
Qed.

(** X15: The two ends of the smoothing curve, for a curve exponent above 0.
    An axis whose updated [last_noise] is below [1e-10] has a smoothing of
    1 and the time constant [c[i] * (min_smoothing + 1 * (max_smoothing -
    min_smoothing))], the largest there is; an axis whose squared delta is
    at least 9 times its updated [last_noise] (3 standard deviations) has a
    smoothing of 0 and the smallest, [c[i] * min_smoothing]. *)
Theorem RC_extremes (delta_RC noise_RC : R) (s : settings)
    (f : FTNoIR_Filter) (now : readings) (input : vec) (i : nat) :
  0 < kSmoothingScaleCurve s ->
  (next_noise (locals delta_RC noise_RC s f now input i) < 1e-10 ->
   smoothing (locals delta_RC noise_RC s f now input i) = 1
   /\ RC (locals delta_RC noise_RC s f now input i)
      = c i * (min_smoothing s + 1 * (max_smoothing s - min_smoothing s)))
  /\ (1e-10 <= next_noise (locals delta_RC noise_RC s f now input i) ->
      9 * next_noise (locals delta_RC noise_RC s f now input i)
      <= noise (locals delta_RC noise_RC s f now input i) ->
      smoothing (locals delta_RC noise_RC s f now input i) = 0
      /\ RC (locals delta_RC noise_RC s f now input i)
         = c i * min_smoothing s).
Proof.
  intros Hc. unfold locals, axis_body. cbn [RC smoothing next_noise noise].
  unfold RC_of, smoothing_of, smoothing_scale_curve.
  split.
  - intros Hq. rewrite normalise_quiet by exact Hq.
    rewrite pow_zero_base by exact Hc.
    replace (1 - 0) with 1 by ring. split; reflexivity.
  - intros Hq H9. rewrite normalise_saturates by assumption.
    rewrite pow_one_base. split; ring.
Qed.

Lemma RC_extremes_example :
  0 < kSmoothingScaleCurve example_settings
  /\ RC (locals 1 60 example_settings example_fresh example_now
            (constant 10) 0)
     = 5 * (min_smoothing example_settings
            + 1 * (max_smoothing example_settings
                   - min_smoothing example_settings)).
Proof.
  assert (Hc : 0 < kSmoothingScaleCurve example_settings) by (cbn; lra).
  split; [exact Hc |].
  destruct (RC_extremes 1 60 example_settings example_fresh example_now
              (constant 10) 0 Hc) as (H & _).
  apply H.
  destruct (locals_frozen 1 60 example_settings example_fresh example_now
              (constant 10) 0
              (first_run_not_new example_fresh example_now (constant 10)
                 eq_refl)) as (_ & ->).
  destruct (initialise_first example_fresh example_now (constant 10) eq_refl)
    as (_ & _ & _ & Hg).
  destruct (Hg 0%nat ltac:(lia)) as (_ & _ & ->). lra.
Defined.

(** ** Entries read, repeated inputs *)

Lemma new_sample_ext (last last' input input' : vec) :
  (forall i, (i < 6)%nat -> last' i = last i /\ input' i = input i) ->
  new_sample last' input' = new_sample last input.
Proof.
  intros Hag.
  assert (Hto : forall a a' b b' : vec,
             (forall i, (i < 6)%nat -> a' i = a i /\ b' i = b i) ->
             new_sample a b = true -> new_sample a' b' = true).
  { intros a a' b b' H E. unfold new_sample in *.
    apply scan_true_iff in E. destruct E as (k & Hk & Hd).
    apply scan_true_iff. exists k. split; [exact Hk |].
    destruct (H k ltac:(lia)) as [-> ->]. exact Hd. }
  destruct (new_sample last input) eqn:E.
  - now apply (Hto last last' input input').
  - apply not_true_is_false. intros E'.
    assert (new_sample last input = true).
    { apply (Hto last' last input' input); [| exact E'].
      intros i Hi. destruct (Hag i Hi). now split. }
    congruence.
Qed.

(** X17: An invocation reads the entries 0 to 5 of its arrays and no other: two
    filters with the same [first_run] and timers whose arrays agree on the
    six axes give, for inputs that agree on the six axes, results that agree
    on the six axes, and the same timers. *)
Theorem filter_reads_six_entries (delta_RC noise_RC : R) (s : settings)
    (f f' : FTNoIR_Filter) (now : readings)
    (input input' output output' : vec) :
  first_run f' = first_run f ->
  sample_timer f' = sample_timer f -> filter_timer f' = filter_timer f ->
  (forall i, (i < 6)%nat ->
     input' i = input i
     /\ last_output f' i = last_output f i
     /\ last_delta f' i = last_delta f i
     /\ last_noise f' i = last_noise f i) ->
  (forall i, (i < 6)%nat ->
     snd (filter delta_RC noise_RC s f' now input' output') i
     = snd (filter delta_RC noise_RC s f now input output) i
     /\ last_output (fst (filter delta_RC noise_RC s f' now input' output')) i
        = last_output (fst (filter delta_RC noise_RC s f now input output)) i
     /\ last_delta (fst (filter delta_RC noise_RC s f' now input' output')) i
        = last_delta (fst (filter delta_RC noise_RC s f now input output)) i
     /\ last_noise (fst (filter delta_RC noise_RC s f' now input' output')) i
        = last_noise (fst (filter delta_RC noise_RC s f now input output)) i)
  /\ sample_timer (fst (filter delta_RC noise_RC s f' now input' output'))
     = sample_timer (fst (filter delta_RC noise_RC s f now input output))
  /\ filter_timer (fst (filter delta_RC noise_RC s f' now input' output'))
     = filter_timer (fst (filter delta_RC noise_RC s f now input output)).
Proof.
  intros Hfr Hst Hft Hag.
  assert (Hloc : forall i, (i < 6)%nat ->
            locals delta_RC noise_RC s f' now input' i
            = locals delta_RC noise_RC s f now input i).
  { intros i Hi. destruct (Hag i Hi) as (Hin & Ho & Hd & Hn).
    destruct (first_run f) eqn:Hf.
    - rewrite (locals_first_run delta_RC noise_RC s f' now input' i Hfr Hi).
      rewrite (locals_first_run delta_RC noise_RC s f now input i Hf Hi).
      now rewrite Hin.
    - unfold locals.
      rewrite (initialise_later f' now input' Hfr).
      rewrite (initialise_later f now input Hf).
      unfold dt_s, dt_f.
      rewrite (new_sample_ext (last_output f) (last_output f') input input')
        by (intros k Hk; destruct (Hag k Hk) as (? & ? & _); now split).
      now rewrite Hst, Hft, Hin, Ho, Hd, Hn. }
  split; [| split].
  - intros i Hi.
    destruct (filter_axis delta_RC noise_RC s f' now input' output' i Hi)
      as (-> & -> & -> & ->).
    destruct (filter_axis delta_RC noise_RC s f now input output i Hi)
      as (-> & -> & -> & ->).
    rewrite (Hloc i Hi). now repeat split.
  - destruct (filter_frame delta_RC noise_RC s f' now input' output')
      as (-> & _).
    destruct (filter_frame delta_RC noise_RC s f now input output) as (-> & _).
    cbn [restart sample_timer].
    destruct (first_run f) eqn:Hf.
    + rewrite (first_run_not_new f' now input' Hfr).
      rewrite (first_run_not_new f now input Hf).
      destruct (initialise_first f' now input' Hfr) as (_ & -> & _).
      now destruct (initialise_first f now input Hf) as (_ & -> & _).
    + rewrite (initialise_later f' now input' Hfr).
      rewrite (initialise_later f now input Hf).
      rewrite (new_sample_ext (last_output f) (last_output f') input input')
        by (intros k Hk; destruct (Hag k Hk) as (? & ? & _); now split).
      now rewrite Hst.
  - destruct (filter_frame delta_RC noise_RC s f' now input' output')
      as (_ & ->).
    now destruct (filter_frame delta_RC noise_RC s f now input output)
      as (_ & ->).
Qed.

Lemma filter_reads_six_entries_example :
  snd (filter 1 60 example_settings example_running example_now
         (upd (constant 10) 6 0) (constant 1)) 0%nat
  = snd (filter 1 60 example_settings example_running example_now
           (constant 10) (constant 0)) 0%nat.
Proof.
  destruct (filter_reads_six_entries 1 60 example_settings example_running
              example_running example_now (constant 10)
              (upd (constant 10) 6 0) (constant 0) (constant 1)
              eq_refl eq_refl eq_refl)
    as (H & _).
  - intros i Hi. rewrite upd_other by lia. now repeat split.
  - now destruct (H 0%nat ltac:(lia)) as (-> & _).
Defined.

(** X18: A call at the instant the filter timer was started: with a minimum
    smoothing above 0 and a curve exponent that is not negative the time
    constant is above 0, the blend factor is 0 and the output of the axis is
    its [last_output], whatever the input. *)
Theorem zero_elapsed_keeps_output (delta_RC noise_RC : R) (s : settings)
    (f : FTNoIR_Filter) (now : readings) (input output : vec) (i : nat) :
  0 < kMinSmoothing s -> 0 <= kSmoothingScaleCurve s ->
  first_run f = false ->
  nanos (filter_elapsed now) = nanos (state (filter_timer f)) ->
  (i < 6)%nat ->
  0 < RC (locals delta_RC noise_RC s f now input i)
  /\ alpha (locals delta_RC noise_RC s f now input i) = 0
  /\ snd (filter delta_RC noise_RC s f now input output) i = last_output f i.
Proof.
  intros Hmin Hc Hf Hz Hi.
  destruct (locals_RC_positive delta_RC noise_RC s f now input i Hmin Hc Hi)
    as (_ & Hrc).
  assert (Hdt : dt_f (initialise f now input) now = 0).
  { rewrite (initialise_later f now input Hf).
    unfold dt_f, elapsed_seconds, elapsed. rewrite conv_nanos, Hz.
    rewrite Z.sub_diag. cbn [IZR]. ring. }
  assert (Ha : alpha (locals delta_RC noise_RC s f now input i) = 0).
  { change (alpha (locals delta_RC noise_RC s f now input i))
      with (dt_f (initialise f now input) now
            / (dt_f (initialise f now input) now
               + RC (locals delta_RC noise_RC s f now input i))).
    rewrite Hdt. apply alpha_zero. }
  split; [exact Hrc |]. split; [exact Ha |].
  destruct (filter_axis delta_RC noise_RC s f now input output i Hi)
    as (_ & _ & _ & ->).
  rewrite locals_next_output, Ha, (initialise_later f now input Hf). ring.
Qed.

Lemma zero_elapsed_keeps_output_example :
  0 < kMinSmoothing example_settings
  /\ snd (filter 1 60 example_settings example_running
            {| init_sample_start := seconds 1;
               init_filter_start := seconds 1;
               sample_elapsed := seconds 1;
               filter_elapsed := seconds 1;
               sample_start := seconds 1;
               filter_start := seconds 1 |}
            (constant 10) (constant 0)) 0%nat = 2.
Proof.
  assert (Hmin : 0 < kMinSmoothing example_settings) by (cbn; lra).
  split; [exact Hmin |].
  destruct (zero_elapsed_keeps_output 1 60 example_settings example_running
              {| init_sample_start := seconds 1;
                 init_filter_start := seconds 1;
                 sample_elapsed := seconds 1;
                 filter_elapsed := seconds 1;
                 sample_start := seconds 1;
                 filter_start := seconds 1 |}
              (constant 10) (constant 0) 0 Hmin)
    as (_ & _ & H); [cbn; lra | reflexivity | reflexivity | lia |].
  exact H.
Defined.

(** ** Sequences of invocations *)




(** ** Bounds and fixed points, up to rounding *)



(** C1 (amended): in every invocation, for every filter state and every
    axis [i], the time constant [RC] of the axis is at least
    [c[i] * min_smoothing] and at most [c[i] * (min_smoothing + 1 *
    (max_smoothing - min_smoothing))], the value line 93 gives for a
    smoothing of 1, with [max_smoothing] the clamped value of line 72.  The
    exponent of the curve is not negative: its slider ranges over positive
    values (the comment of line 68). *)
Theorem RC_between_bounds (delta_RC noise_RC : R) (s : settings)
    (f : FTNoIR_Filter) (now : readings) (input : vec) (i : nat) :
  (i < 6)%nat -> 0 <= kSmoothingScaleCurve s ->
  c i * min_smoothing s
  <= RC (locals delta_RC noise_RC s f now input i)
  <= c i * (min_smoothing s + 1 * (max_smoothing s - min_smoothing s)).
Proof.
  intros _ Hc.
  exact (locals_RC_range delta_RC noise_RC s f now input i Hc).
Qed.

Lemma RC_between_bounds_example :
  (2 < 6)%nat /\ 0 <= kSmoothingScaleCurve example_settings
  /\ c 2 * min_smoothing example_settings
     <= RC (locals 1 60 example_settings example_running example_now
              (constant 10) 2)
     <= c 2 * (min_smoothing example_settings
               + 1 * (max_smoothing example_settings
                      - min_smoothing example_settings)).
Proof.
  split; [lia |]. split; [cbn; lra |].
  apply (RC_between_bounds 1 60 example_settings example_running example_now
           (constant 10) 2); [lia | cbn; lra].
Defined.

(** C1, as the claim has it, fails in binary64: with the sliders at 0.03
    and 0.29, the first invocation computes for the axis 3, of weight 1,
    the time constant [0.03 + 1 * (0.29 - 0.03)], which is
    0.29000000000000004 and above [c[3] * max_smoothing = 0.29]. *)
Lemma RC_above_max_binary64 :
  exists i : nat,
    (i < 6)%nat
    /\ forall pow : float -> float -> float,
         pow 0%float 0.8%float = 0%float ->
         (Binary64.c i * Binary64.max_smoothing Binary64.narrow_settings
          <? Binary64.RC
               (Binary64.locals pow 1 60 Binary64.narrow_settings
                  Binary64.fresh Binary64.just_after (Binary64.constant 1.7)
                  i))%float
         = true.
Proof.
  exists 3%nat. split; [lia |]. intros pow Hpow.
  vm_compute. rewrite Hpow. vm_compute. reflexivity.
Qed.










End Ewma2.
